(** * circuit_seq_server: the Flask application of [app.py]

    A shallow embedding of [create_app] and of the request handlers it
    registers, together with the parts of Python's [datetime] module the
    handlers call.  The persistence layer ([circuit_seq_server.model]) and
    [circuit_seq_server.date_utils] are imported by [app.py] but are not part
    of the sources at hand; the handlers are therefore written against an
    interface record, and a second instance of that interface is modelled
    from the written specification of the allocation core.

    Conventions.
    - Python integers are unbounded: they are [Z].
    - [jsonify(...)] alone is an HTTP 200 response; [jsonify(...), 401] is a
      401 response; a handler body that runs off its end returns [None].
    - [logger.info] calls write to the process log only and are not modelled.
    - [request.json] and [request.form] are string-keyed dictionaries:
      [gmap string string]; [d.get(k, None)] is [d !! k]. *)

From Stdlib Require Import ZArith Lia List Ascii Permutation.
From stdpp Require Import base option list gmap strings pretty.
From Stdlib Require Import Sorting.Sorted.

Open Scope Z_scope.

(** ** Python's [datetime.date] (the pure-Python reference implementation) *)

Module datetime.

Record date : Type := mk_date { year : Z; month : Z; day : Z }.

#[global] Instance date_eq_dec : EqDecision date.
Proof. solve_decision. Defined.

(** [_is_leap]: year -> 1 if leap year, else 0. *)
Definition _is_leap (y : Z) : bool :=
  (y mod 4 =? 0) && (negb (y mod 100 =? 0) || (y mod 400 =? 0)).

(** [_days_before_year]: number of days before January 1st of year. *)
Definition _days_before_year (y0 : Z) : Z :=
  let y := y0 - 1 in
  y * 365 + y / 4 - y / 100 + y / 400.

(** [_DAYS_IN_MONTH], indexed from 1 (index 0 is the placeholder [-1]). *)
Definition _DAYS_IN_MONTH : list Z :=
  [-1; 31; 28; 31; 30; 31; 30; 31; 31; 30; 31; 30; 31].

(** [_DAYS_BEFORE_MONTH]: the running sums of [_DAYS_IN_MONTH]. *)
Definition _DAYS_BEFORE_MONTH : list Z :=
  [-1; 0; 31; 59; 90; 120; 151; 181; 212; 243; 273; 304; 334].

Definition tbl (t : list Z) (i : Z) : Z := nth (Z.to_nat i) t (-1).

Definition _days_in_month (y m : Z) : Z :=
  if (m =? 2) && _is_leap y then 29 else tbl _DAYS_IN_MONTH m.

Definition _days_before_month (y m : Z) : Z :=
  tbl _DAYS_BEFORE_MONTH m + (if (2 <? m) && _is_leap y then 1 else 0).

(** [_ymd2ord]: year, month, day -> ordinal, considering 01-Jan-0001 as
    day 1. *)
Definition _ymd2ord (y m d : Z) : Z :=
  _days_before_year y + _days_before_month y m + d.

Definition _DI400Y : Z := Eval cbv in _days_before_year 401.
Definition _DI100Y : Z := Eval cbv in _days_before_year 101.
Definition _DI4Y : Z := Eval cbv in _days_before_year 5.

(** [_ord2ymd]: ordinal -> (year, month, day). *)
Definition _ord2ymd (n0 : Z) : Z * Z * Z :=
  let n := n0 - 1 in
  let n400 := n / _DI400Y in
  let n := n mod _DI400Y in
  let y := n400 * 400 + 1 in
  let n100 := n / _DI100Y in
  let n := n mod _DI100Y in
  let n4 := n / _DI4Y in
  let n := n mod _DI4Y in
  let n1 := n / 365 in
  let n := n mod 365 in
  let y := y + (n100 * 100 + n4 * 4 + n1) in
  if (n1 =? 4) || (n100 =? 4) then (y - 1, 12, 31)
  else
    let leapyear := (n1 =? 3) && (negb (n4 =? 24) || (n100 =? 3)) in
    let m := Z.shiftr (n + 50) 5 in
    let preceding :=
      tbl _DAYS_BEFORE_MONTH m + (if (2 <? m) && leapyear then 1 else 0) in
    let '(m, preceding) :=
      if n <? preceding
      then (m - 1,
            preceding - (tbl _DAYS_IN_MONTH (m - 1)
                         + (if (m - 1 =? 2) && leapyear then 1 else 0)))
      else (m, preceding) in
    (y, m, n - preceding + 1).

Definition toordinal (d : date) : Z := _ymd2ord (year d) (month d) (day d).

Definition fromordinal (n : Z) : date :=
  let '(y, m, d) := _ord2ymd n in mk_date y m d.

(** [_isoweek1monday]: ordinal of the Monday that starts ISO week 1. *)
Definition _isoweek1monday (y : Z) : Z :=
  let THURSDAY := 3 in
  let firstday := _ymd2ord y 1 1 in
  let firstweekday := (firstday + 6) mod 7 in
  let week1monday := firstday - firstweekday in
  if THURSDAY <? firstweekday then week1monday + 7 else week1monday.

(** [date.isocalendar()]: the (ISO year, week number, weekday) triple. *)
Definition isocalendar (d : date) : Z * Z * Z :=
  let y := year d in
  let week1monday := _isoweek1monday y in
  let today := _ymd2ord (year d) (month d) (day d) in
  let week := (today - week1monday) / 7 in
  let wday := (today - week1monday) mod 7 in
  if week <? 0 then
    let y := y - 1 in
    let week1monday := _isoweek1monday y in
    (y, (today - week1monday) / 7 + 1, (today - week1monday) mod 7 + 1)
  else if (52 <=? week) && (_isoweek1monday (y + 1) <=? today) then
    (y + 1, 1, wday + 1)
  else (y, week + 1, wday + 1).

Definition MINYEAR : Z := 1.
Definition MAXYEAR : Z := 9999.

(** [date.fromisocalendar(year, week, day)]; [None] stands for the
    [ValueError] raised on an ISO year, week or weekday out of range. *)
Definition fromisocalendar (y w d : Z) : option date :=
  if negb ((MINYEAR <=? y) && (y <=? MAXYEAR)) then None
  else
    let out_of_range :=
      if (0 <? w) && (w <? 53) then false
      else if w =? 53 then
        let first_weekday := (_ymd2ord y 1 1) mod 7 in
        negb ((first_weekday =? 4) || ((first_weekday =? 3) && _is_leap y))
      else true in
    if out_of_range then None
    else if negb ((0 <? d) && (d <? 8)) then None
    else
      let day_offset := (w - 1) * 7 + (d - 1) in
      let day_1 := _isoweek1monday y in
      Some (fromordinal (day_1 + day_offset)).

(** Rich comparison of dates: [_cmp] on the (year, month, day) triples. *)
Definition lt (a b : date) : bool :=
  (year a <? year b)
  || ((year a =? year b)
      && ((month a <? month b)
          || ((month a =? month b) && (day a <? day b)))).

Definition ge (a b : date) : bool :=
  (year b <? year a)
  || ((year a =? year b)
      && ((month b <? month a)
          || ((month a =? month b) && (day b <=? day a)))).

End datetime.

Import datetime.

(** ** Data model *)

Definition bytes : Type := list Byte.byte.

(** A row of the [User] table, with the attributes [app.py] reads. *)
Record User : Type := mk_User {
  u_id : Z;
  u_email : string;
  u_activated : bool;
  u_is_admin : bool;
}.

(** Modelled from the spec: the [Sample] entity of section 3 (its table is
    declared in the absent [model.py]), under the attribute names [app.py]
    uses: [email] is the owner, [date] the submission instant,
    [reference_sequence_description] the optional description whose presence
    is the has-a-reference-sequence flag the handlers test.  The week bucket
    is derived from [date]. *)
Record Sample : Type := mk_Sample {
  primary_key : string;
  email : string;
  name : string;
  date_ : date;
  ordinal_in_week : Z;
  reference_sequence_description : option string;
}.

(** Modelled from the spec: the [Settings] value object of section 3 (the
    dictionary that [get_current_settings] of the absent [model.py]
    returns), keys [plate_n_rows] and [plate_n_cols] as [app.py] reads them. *)
Record Settings : Type := mk_Settings {
  plate_n_rows : Z;
  plate_n_cols : Z;
  updated_by : string;
}.

#[global] Instance User_eq_dec : EqDecision User.
Proof. solve_decision. Defined.
#[global] Instance Sample_eq_dec : EqDecision Sample.
Proof. solve_decision. Defined.
#[global] Instance Settings_eq_dec : EqDecision Settings.
Proof. solve_decision. Defined.

(** The durable state behind the application: the two tables, the current
    settings, and the files below [data_path]. *)
Record Store : Type := mk_Store {
  users : list User;
  samples : list Sample;
  settings : Settings;
  files : gmap string bytes;
}.

Definition with_settings (s : Settings) (st : Store) : Store :=
  mk_Store (users st) (samples st) s (files st).

(** What a request sees of the outside world: the clock, and whether the
    disk accepts a write. *)
Record Env : Type := mk_Env {
  today : date;
  disk_writable : bool;
}.

Inductive Method : Type := GET | POST.

(** A request that passed [@jwt_required()]: [current_user] is the row that
    [user_lookup_callback] loaded for the token's identity. *)
Record Request : Type := mk_Request {
  method : Method;
  current_user : User;
  json : gmap string string;
  form : gmap string string;
  upload : gmap string bytes;
}.

(** ** Responses *)

Inductive value : Type :=
  | VStr (s : string)
  | VInt (n : Z)
  | VSample (s : Sample)
  | VSamples (l : list Sample)
  | VUser (u : User)
  | VUsers (l : list User).

Inductive payload : Type :=
  | JText (s : string)                          (* jsonify("...") *)
  | JObject (fields : list (string * value))    (* jsonify(k=v, ...) *)
  | Dict (s : Settings)                         (* a dict returned as it is *)
  | Attachment (path : string) (content : bytes). (* flask.send_file *)

Record Response : Type := mk_Response { body : payload; status : Z }.

Inductive exn : Type := MultipleResultsFound | ValueError.

(** What a view function does: return a response, fall off its end
    (Python's [None]), or raise. *)
Inductive result : Type :=
  | Return (r : Response)
  | ReturnNone
  | Raise (e : exn).

Definition ok (b : payload) : result := Return (mk_Response b 200).
Definition err401 (b : payload) : result := Return (mk_Response b 401).

(** SQLAlchemy's [Result.scalar_one_or_none()]. *)
Definition scalar_one_or_none {A} (rows : list A) : exn + option A :=
  match rows with
  | [] => inr None
  | [x] => inr (Some x)
  | _ => inl MultipleResultsFound
  end.

(** [order_by(db.desc("date"))]: rows by decreasing date. *)
Fixpoint insert_desc (s : Sample) (l : list Sample) : list Sample :=
  match l with
  | [] => [s]
  | x :: l' => if datetime.ge (date_ s) (date_ x) then s :: l
               else x :: insert_desc s l'
  end.

Definition order_by_date_desc (l : list Sample) : list Sample :=
  foldr insert_desc [] l.

(** ** The interface [app.py] imports

    [circuit_seq_server.model], [circuit_seq_server.date_utils] and the
    token issuer of [flask_jwt_extended], none of which is among the
    sources.  The functions that read the clock or touch the disk take the
    [Env]; those that write return the new store. *)
Record Model : Type := mk_Model {
  check_password : User → option string → bool;
  create_access_token : User → string;
  get_start_of_week : Env → date;
  add_new_user : option string → option string → Store → bool * Store;
  add_new_sample :
    string → string → option bytes → string → Env → Store →
    option Sample * Store;
  count_samples_this_week : Env → Store → Z;
  get_current_settings : Store → Settings;
  set_current_settings :
    string → gmap string string → Store → bool * Store;
}.

(** ** The view functions of [create_app] *)

Section App.

Context (M : Model) (data_path : string).

(** [POST /login] *)
Definition login (req_json : gmap string string) (st : Store) : result :=
  let email := req_json !! "email" in
  let password := req_json !! "password" in
  match scalar_one_or_none
          (filter (λ u, email = Some (u_email u)) (users st)) with
  | inl e => Raise e
  | inr None => err401 (JText "Unknown email address")
  | inr (Some user) =>
      if negb (u_activated user)
      then err401 (JText "User account is not yet activated")
      else if negb (check_password M user password)
      then err401 (JText "Incorrect password")
      else ok (JObject [("user", VUser user);
                        ("access_token", VStr (create_access_token M user))])
  end.

(** [POST /signup] *)
Definition signup (req_json : gmap string string) (st : Store)
  : result * Store :=
  let email := req_json !! "email" in
  let password := req_json !! "password" in
  let '(added, st') := add_new_user M email password st in
  if added then (ok (JObject [("result", VStr "success")]), st')
  else (err401 (JObject [("result", VStr "Signup failed")]), st').

(** [GET /remaining] *)
Definition remaining (env : Env) (st : Store) : result :=
  let settings := get_current_settings M st in
  ok (JObject
        [("remaining",
          VInt (plate_n_rows settings * plate_n_cols settings
                - count_samples_this_week M env st))]).

(** [GET /samples] *)
Definition samples_current (env : Env) (req : Request) (st : Store)
  : list Sample :=
  let start_of_week := get_start_of_week M env in
  order_by_date_desc
    (filter (λ s, datetime.ge (date_ s) start_of_week = true)
       (filter (λ s, email s = u_email (current_user req)) (samples st))).

Definition samples_previous (env : Env) (req : Request) (st : Store)
  : list Sample :=
  let start_of_week := get_start_of_week M env in
  order_by_date_desc
    (filter (λ s, datetime.lt (date_ s) start_of_week = true)
       (filter (λ s, email s = u_email (current_user req)) (samples st))).

Definition samples_view (env : Env) (req : Request) (st : Store) : result :=
  ok (JObject [("current_samples", VSamples (samples_current env req st));
               ("previous_samples", VSamples (samples_previous env req st))]).

(** The f-string of [reference_sequence]. *)
Definition filename (user_sample : Sample) : string :=
  let '(year, week, _) := isocalendar (date_ user_sample) in
  data_path +:+ "/" +:+ pretty year +:+ "/" +:+ pretty week
  +:+ "/reference/" +:+ primary_key user_sample +:+ "_"
  +:+ name user_sample +:+ ".fasta".

(** The rows selected by [db.select(Sample).filter_by] under the keyword
    arguments collected in [filters]. *)
Definition filter_by (req : Request) (st : Store) : list Sample :=
  let by_key :=
    filter (λ s, json req !! "primary_key" = Some (primary_key s))
      (samples st) in
  if negb (u_is_admin (current_user req))
  then filter (λ s, email s = u_email (current_user req)) by_key
  else by_key.

(** [POST /reference_sequence] *)
Definition reference_sequence (req : Request) (st : Store) : result :=
  match scalar_one_or_none (filter_by req st) with
  | inl e => Raise e
  | inr None => err401 (JText "Sample not found")
  | inr (Some user_sample) =>
      match reference_sequence_description user_sample with
      | None => err401 (JText "Sample does not contain a reference sequence")
      | Some _ =>
          let file := filename user_sample in
          match files st !! file with
          | None => err401 (JText "Fasta file not found")
          | Some content => ok (Attachment file content)
          end
      end
  end.

(** [POST /addsample] *)
Definition add_sample (env : Env) (req : Request) (st : Store)
  : result * Store :=
  let email := u_email (current_user req) in
  let name := default "" (form req !! "name") in
  let reference_sequence_file := upload req !! "file" in
  let '(new_sample, st') :=
    add_new_sample M email name reference_sequence_file data_path env st in
  match new_sample with
  | Some s => (ok (JObject [("sample", VSample s)]), st')
  | None =>
      (err401 (JObject
                 [("message", VStr "No more samples available this week.")]),
       st')
  end.

(** [GET, POST /admin/settings].  In the branch where the update fails the
    source evaluates the pair [jsonify(...), 401] as an expression statement
    and runs off the end of the function. *)
Definition admin_settings (req : Request) (st : Store) : result * Store :=
  if negb (u_is_admin (current_user req))
  then (err401 (JText "Admin account required"), st)
  else
    match method req with
    | POST =>
        let '(updated, st') :=
          set_current_settings M (u_email (current_user req)) (json req) st in
        if updated
        then (ok (JObject [("message", VStr "Settings updated.")]), st')
        else (ReturnNone, st')
    | GET => (ok (Dict (get_current_settings M st)), st)
    end.

(** [GET /admin/allsamples] *)
Definition admin_all_samples (env : Env) (req : Request) (st : Store)
  : result :=
  if negb (u_is_admin (current_user req))
  then err401 (JText "Admin account required")
  else
    let '(year, week, _) := isocalendar (today env) in
    match fromisocalendar year week 1 with
    | None => Raise ValueError
    | Some start_of_week =>
        let current_samples :=
          order_by_date_desc
            (filter (λ s, datetime.ge (date_ s) start_of_week = true)
               (samples st)) in
        let previous_samples :=
          order_by_date_desc
            (filter (λ s, datetime.lt (date_ s) start_of_week = true)
               (samples st)) in
        ok (JObject [("current_samples", VSamples current_samples);
                     ("previous_samples", VSamples previous_samples)])
    end.

(** [GET /admin/allusers] *)
Definition admin_all_users (req : Request) (st : Store) : result :=
  if u_is_admin (current_user req)
  then ok (JObject [("users", VUsers (users st))])
  else err401 (JText "Admin account required").

(** The URL map of the application. *)
Inductive endpoint : Type :=
  | Login | Signup | Remaining | Samples | ReferenceSequence | AddSample
  | AdminSettings | AdminAllSamples | AdminAllUsers.

Definition handle (ep : endpoint) (env : Env) (req : Request) (st : Store)
  : result * Store :=
  match ep with
  | Login => (login (json req) st, st)
  | Signup => signup (json req) st
  | Remaining => (remaining env st, st)
  | Samples => (samples_view env req st, st)
  | ReferenceSequence => (reference_sequence req st, st)
  | AddSample => add_sample env req st
  | AdminSettings => admin_settings req st
  | AdminAllSamples => (admin_all_samples env req st, st)
  | AdminAllUsers => (admin_all_users req st, st)
  end.

End App.

(** ** The loaders registered with the JWT manager *)

(** [user_identity_lookup]: the identity put into a token is the user's
    id. *)
Definition user_identity_lookup (user : User) : Z := u_id user.

(** What [user_lookup_callback] does: [jwt_data["sub"]] raises [KeyError]
    when the token carries no subject; the query may raise; otherwise the
    loaded row, or [None]. *)
Inductive loaded : Type :=
  | KeyError
  | LookupRaise (e : exn)
  | Loaded (u : option User).

(** [user_lookup_callback(_jwt_header, jwt_data)] *)
Definition user_lookup_callback (_jwt_header : gmap string string)
    (jwt_data : gmap string Z) (st : Store) : loaded :=
  match jwt_data !! "sub" with
  | None => KeyError
  | Some identity =>
      match scalar_one_or_none
              (filter (λ u, u_id u = identity) (users st)) with
      | inl e => LookupRaise e
      | inr r => Loaded r
      end
  end.

(** ** The allocation core, modelled from the written specification

    [add_new_sample], [count_samples_this_week] and [get_current_settings]
    live in the absent [model.py].  This module follows sections 3 to 6 of
    the specification operation by operation. *)

Module Core.

(** Modelled from the spec: [WeekBucket], the pair (isoYear, isoWeek) of
    section 3, and [bucketFor] of section 4.1. *)
Definition WeekBucket : Type := (Z * Z)%type.

(** Modelled from the spec: [bucketFor] of section 4.1, by ISO-8601 week
    numbering. *)
Definition bucketFor (t : date) : WeekBucket :=
  let '(y, w, _) := isocalendar t in (y, w).

(** Modelled from the spec: the week bucket of a sample is derived from its
    submission instant. *)
Definition weekBucket (s : Sample) : WeekBucket := bucketFor (date_ s).

(** Modelled from the spec: [countInWeek] of section 4.4, the number of
    committed samples of a bucket. *)
Definition countInWeek (W : WeekBucket) (repo : list Sample) : Z :=
  Z.of_nat (length (filter (λ s, weekBucket s = W) repo)).

(** Modelled from the spec: capacity, plate rows times plate columns. *)
Definition capacity (s : Settings) : Z := plate_n_rows s * plate_n_cols s.

(** Modelled from the spec: [tryReserveSlot] of section 4.2; [None] is
    [CapacityExceeded], [Some k] the claimed ordinal [count + 1]. *)
Definition tryReserveSlot (W : WeekBucket) (settingsInForce : Settings)
    (repo : list Sample) : option Z :=
  let count := countInWeek W repo in
  if capacity settingsInForce <=? count then None else Some (count + 1).

Fixpoint zeros (n : nat) : string :=
  match n with O => "" | S k => String "0"%char (zeros k) end.

(** Modelled from the spec: zero-padding of a non-negative number to a
    minimal width, for the fixed-width fields of the key. *)
Definition zfill (width : nat) (n : Z) : string :=
  let s := pretty n in zeros (width - String.length s) +:+ s.

(** Modelled from the spec: [generate] of section 4.3, with the example
    scheme [YYYY-WW-NNN], zero-padded. *)
Definition generate (W : WeekBucket) (ordinal : Z) : string :=
  zfill 4 W.1 +:+ "-" +:+ zfill 2 W.2 +:+ "-" +:+ zfill 3 ordinal.

(** Modelled from the spec: the two ways [insert] fails (section 4.4). *)
Inductive InsertError : Type := DuplicateKey | DuplicateOrdinal.

(** Modelled from the spec: [insert] of section 4.4, the enforcement point
    of the two uniqueness constraints. *)
Definition insert (s : Sample) (repo : list Sample)
  : InsertError + list Sample :=
  if existsb (λ x, bool_decide (primary_key x = primary_key s)) repo
  then inl DuplicateKey
  else if existsb
            (λ x, bool_decide (weekBucket x = weekBucket s)
                  && bool_decide (ordinal_in_week x = ordinal_in_week s)) repo
  then inl DuplicateOrdinal
  else inr (repo ++ [s]).

(** Modelled from the spec: the path convention of section 6. *)
Definition path_of (dataRoot : string) (s : Sample) : string :=
  dataRoot +:+ "/" +:+ pretty (weekBucket s).1 +:+ "/"
  +:+ pretty (weekBucket s).2 +:+ "/reference/" +:+ primary_key s
  +:+ "_" +:+ name s +:+ ".fasta".

(** Modelled from the spec: [store] of section 4.5; it never overwrites,
    and [None] is [StorageFailure]. *)
Definition store (dataRoot : string) (env : Env) (s : Sample)
    (fileBytes : bytes) (fs : gmap string bytes)
  : option (string * gmap string bytes) :=
  let p := path_of dataRoot s in
  if negb (disk_writable env) then None
  else match fs !! p with
       | Some _ => None
       | None => Some (p, <[p := fileBytes]> fs)
       end.

(** Modelled from the spec: the error taxonomy of section 7.  A uniqueness
    conflict that survives the one retry is the opaque failure of step 3. *)
Inductive Reason : Type := InvalidInput | CapacityExceeded.
Inductive Failure : Type := StorageFailure | UniquenessConflict.

(** Modelled from the spec: the terminal states of a submission
    (section 4.6). *)
Inductive Outcome : Type :=
  | Accepted (s : Sample)
  | Rejected (r : Reason)
  | Failed (f : Failure).

Section Orchestrator.

(** How the description of a reference sequence is read off the uploaded
    file is not specified. *)
Context (describe : bytes → string).

(** Modelled from the spec: steps 2 and 3 of section 4.6: reserve a slot
    for [now] under the settings in force, generate the key, build the
    sample and insert it. *)
Definition reserve_and_insert (owner sample_name : string) (now : date)
    (st : Store) : Reason + (InsertError + (Sample * Store)) :=
  let W := bucketFor now in
  match tryReserveSlot W (settings st) (samples st) with
  | None => inl CapacityExceeded
  | Some ordinal =>
      let s := mk_Sample (generate W ordinal) owner sample_name now
                 ordinal None in
      match insert s (samples st) with
      | inl e => inr (inl e)
      | inr repo' =>
          inr (inr (s, mk_Store (users st) repo' (settings st) (files st)))
      end
  end.

(** Modelled from the spec: a sample is committed without a reference
    sequence (section 5, cancellation) and gets its description once the
    upload is stored. *)
Definition set_description (key : string) (d : string) (repo : list Sample)
  : list Sample :=
  map (λ x, if bool_decide (primary_key x = key)
            then mk_Sample (primary_key x) (email x) (name x) (date_ x)
                   (ordinal_in_week x) (Some d)
            else x) repo.

(** Modelled from the spec: step 4 of section 4.6, outside the critical
    section. *)
Definition store_upload (dataRoot : string) (env : Env) (s : Sample)
    (fileBytes : option bytes) (st : Store) : Outcome * Store :=
  match fileBytes with
  | None => (Accepted s, st)
  | Some b =>
      match store dataRoot env s b (files st) with
      | None => (Failed StorageFailure, st)
      | Some (_, fs') =>
          let d := describe b in
          (Accepted (mk_Sample (primary_key s) (email s) (name s) (date_ s)
                       (ordinal_in_week s) (Some d)),
           mk_Store (users st)
             (set_description (primary_key s) d (samples st))
             (settings st) fs')
      end
  end.

(** Modelled from the spec: [submit], the state machine of section 4.6.
    A uniqueness conflict at insertion retries the whole reservation once. *)
Definition submit (dataRoot : string) (env : Env) (owner sample_name : string)
    (fileBytes : option bytes) (st : Store) : Outcome * Store :=
  if bool_decide (owner = "") || bool_decide (sample_name = "")
  then (Rejected InvalidInput, st)
  else
    match reserve_and_insert owner sample_name (today env) st with
    | inl r => (Rejected r, st)
    | inr (inr (s, st')) => store_upload dataRoot env s fileBytes st'
    | inr (inl _) =>
        match reserve_and_insert owner sample_name (today env) st with
        | inl r => (Rejected r, st)
        | inr (inr (s, st')) => store_upload dataRoot env s fileBytes st'
        | inr (inl _) => (Failed UniquenessConflict, st)
        end
    end.

(** Modelled from the spec: [add_new_sample] of the absent [model.py] is the
    orchestrator behind its [Optional[Sample]] return type: the record when
    the submission is accepted, [None] in every other terminal state. *)
Definition add_new_sample_spec (owner sample_name : string)
    (fileBytes : option bytes) (dataRoot : string) (env : Env) (st : Store)
  : option Sample * Store :=
  match submit dataRoot env owner sample_name fileBytes st with
  | (Accepted s, st') => (Some s, st')
  | (_, st') => (None, st')
  end.

(** Modelled from the spec: [count_samples_this_week] of the absent
    [model.py] is [countInWeek(bucketFor(now))]. *)
Definition count_samples_this_week_spec (env : Env) (st : Store) : Z :=
  countInWeek (bucketFor (today env)) (samples st).

(** Modelled from the spec: [remainingThisWeek] of section 6, as worded
    there: capacity minus the count of the week, clamped at 0. *)
Definition remainingThisWeek (env : Env) (st : Store) : Z :=
  Z.max 0 (capacity (settings st) - countInWeek (bucketFor (today env))
                                       (samples st)).

(** Modelled from the spec: the interface of [model.py] with its three
    in-scope functions taken from the specification; the out-of-scope ones
    stay those of [rest]. *)
Definition spec_model (rest : Model) : Model :=
  mk_Model (check_password rest) (create_access_token rest)
    (get_start_of_week rest) (add_new_user rest)
    add_new_sample_spec count_samples_this_week_spec settings
    (set_current_settings rest).

End Orchestrator.

End Core.

(** ** Concurrent submissions

    Modelled from the spec: section 5 asks that reservation and insertion be
    one atomic unit, and names as one admissible strategy a lock keyed by
    week bucket and held for the duration of steps 2 and 3 of the
    orchestrator.  The request-handling workers are threads over one shared
    store; a scheduler picks, at every step, a thread that can move.  Each
    thread runs the orchestrator of [Core] cut into its elementary actions:
    validate, take the lock, read the count and reserve, insert, give the
    lock back, store the upload. *)

Module Concurrent.

Import Core.

Inductive pc : Type :=
  | Received
  | Validated
  | Locked (retried : bool)
  | Reserved (retried : bool) (ordinal : Z)
  | Committed (s : Sample)
  | Released (s : Sample)
  | Done (o : Outcome).

Record thread : Type := mk_thread {
  t_owner : string;
  t_name : string;
  t_file : option bytes;
  t_env : Env;
  t_pc : pc;
}.

Record config : Type := mk_config {
  shared : Store;
  locks : gmap WeekBucket nat;
  threads : list thread;
}.

Definition goto (t : thread) (p : pc) : thread :=
  mk_thread (t_owner t) (t_name t) (t_file t) (t_env t) p.

Definition t_bucket (t : thread) : WeekBucket := bucketFor (today (t_env t)).

Definition with_samples (st : Store) (repo : list Sample) : Store :=
  mk_Store (users st) repo (settings st) (files st).

Section Steps.

Context (describe : bytes → string) (dataRoot : string).

(** Modelled from the spec: one action of thread [i]; [None] when the
    thread has finished, does not exist, or waits for a lock that is
    taken. *)
Definition thread_step (i : nat) (c : config) : option config :=
  match threads c !! i with
  | None => None
  | Some t =>
      let W := t_bucket t in
      let move (p : pc) (st : Store) (lk : gmap WeekBucket nat) :=
        Some (mk_config st lk (<[i := goto t p]> (threads c))) in
      match t_pc t with
      | Received =>
          if bool_decide (t_owner t = "") || bool_decide (t_name t = "")
          then move (Done (Rejected InvalidInput)) (shared c) (locks c)
          else move Validated (shared c) (locks c)
      | Validated =>
          match locks c !! W with
          | Some _ => None
          | None => move (Locked false) (shared c) (<[W := i]> (locks c))
          end
      | Locked r =>
          match tryReserveSlot W (settings (shared c)) (samples (shared c)) with
          | None =>
              move (Done (Rejected CapacityExceeded)) (shared c)
                (delete W (locks c))
          | Some k => move (Reserved r k) (shared c) (locks c)
          end
      | Reserved r k =>
          let s := mk_Sample (generate W k) (t_owner t) (t_name t)
                     (today (t_env t)) k None in
          match insert s (samples (shared c)) with
          | inr repo' =>
              move (Committed s) (with_samples (shared c) repo') (locks c)
          | inl _ =>
              if r
              then move (Done (Failed UniquenessConflict)) (shared c)
                     (delete W (locks c))
              else move (Locked true) (shared c) (locks c)
          end
      | Committed s => move (Released s) (shared c) (delete W (locks c))
      | Released s =>
          let '(o, st') :=
            store_upload describe dataRoot (t_env t) s (t_file t) (shared c) in
          move (Done o) st' (locks c)
      | Done _ => None
      end
  end.

(** A step of the system is an action of some thread. *)
Definition step (c c' : config) : Prop := ∃ i, thread_step i c = Some c'.

(** Running under a schedule: the list of the thread chosen at each step;
    a choice that cannot move is skipped. *)
Fixpoint run_schedule (sched : list nat) (c : config) : config :=
  match sched with
  | [] => c
  | i :: sched' =>
      run_schedule sched' (default c (thread_step i c))
  end.

End Steps.

Definition finished (t : thread) : bool :=
  match t_pc t with Done _ => true | _ => false end.

Definition final (c : config) : Prop := Forall (λ t, finished t = true) (threads c).

(** The terminal states reached, thread by thread. *)
Definition outcomes (c : config) : list Outcome :=
  omap (λ t, match t_pc t with Done o => Some o | _ => None end) (threads c).

Definition is_accepted (o : Outcome) : bool :=
  match o with Accepted _ => true | _ => false end.

Definition is_capacity_exceeded (o : Outcome) : bool :=
  match o with Rejected CapacityExceeded => true | _ => false end.

(** How many of the terminal states satisfy a test. *)
Definition tally (p : Outcome → bool) (l : list Outcome) : nat :=
  length (List.filter p l).

Definition accepted_ordinals (c : config) : list Z :=
  omap (λ o, match o with
             | Accepted s => Some (ordinal_in_week s)
             | _ => None
             end) (outcomes c).

(** [N] calls arriving together: every thread at [Received], no lock held. *)
Definition arrive (st : Store)
    (calls : list (string * string * Env)) : config :=
  mk_config st ∅
    (map (λ '(o, n, e), mk_thread o n None e Received) calls).

(** Whether a thread at this point holds the lock of its week. *)
Definition holds (p : pc) : bool :=
  match p with
  | Locked _ | Reserved _ _ | Committed _ => true
  | _ => false
  end.

(** The ordinal a thread has committed, once it has. *)
Definition slot (t : thread) : option Z :=
  match t_pc t with
  | Committed s | Released s | Done (Accepted s) => Some (ordinal_in_week s)
  | _ => None
  end.

Definition ordinals_of (W : WeekBucket) (repo : list Sample) : list Z :=
  map ordinal_in_week (filter (λ s, weekBucket s = W) repo).

(** An upper bound on the actions a thread has left. *)
Definition rank (p : pc) : nat :=
  match p with
  | Received => 8
  | Validated => 7
  | Locked false => 6
  | Reserved false _ => 5
  | Locked true => 4
  | Reserved true _ => 3
  | Committed _ => 2
  | Released _ => 1
  | Done _ => 0
  end.

Definition measure (c : config) : nat :=
  sum_list (map (λ t, rank (t_pc t)) (threads c)).

(** The invariant of the lock discipline, for calls that all fall into the
    week [W] while the capacity in force is [C]. *)
Definition pc_ok (W : WeekBucket) (C : Z) (st : Store) (p : pc) : Prop :=
  match p with
  | Locked r => r = false
  | Reserved r k =>
      r = false ∧ k = countInWeek W (samples st) + 1 ∧ k ≤ C
  | Done (Accepted _) => True
  | Done (Rejected CapacityExceeded) => countInWeek W (samples st) = C
  | Done _ => False
  | _ => True
  end.

Record thread_ok (W : WeekBucket) (C : Z) (c : config) (i : nat)
    (t : thread) : Prop := mk_thread_ok {
  ok_bucket : t_bucket t = W;
  ok_owner : t_owner t ≠ "";
  ok_name : t_name t ≠ "";
  ok_file : t_file t = None;
  ok_lock : holds (t_pc t) = true ↔ locks c !! W = Some i;
  ok_pc : pc_ok W C (shared c) (t_pc t);
}.

Record inv (W : WeekBucket) (C : Z) (c : config) : Prop := mk_inv {
  inv_threads : ∀ i t, threads c !! i = Some t → thread_ok W C c i t;
  inv_holder : ∀ i, locks c !! W = Some i → (i < length (threads c))%nat;
  inv_settings : capacity (settings (shared c)) = C;
  inv_count : countInWeek W (samples (shared c)) ≤ C;
  inv_keys :
    ∀ s, s ∈ samples (shared c) → weekBucket s = W →
         primary_key s = generate W (ordinal_in_week s)
         ∧ 1 ≤ ordinal_in_week s ≤ countInWeek W (samples (shared c));
  inv_foreign :
    ∀ s k, s ∈ samples (shared c) → weekBucket s ≠ W →
           primary_key s ≠ generate W k;
  inv_slots : omap slot (threads c) ≡ₚ ordinals_of W (samples (shared c));
  inv_nodup : NoDup (ordinals_of W (samples (shared c)));
}.

End Concurrent.

(** ** Histories

    The store over time: a history is a sequence of submissions through
    [POST /addsample] and of changes of the current settings by an
    administrator. *)

Inductive event : Type :=
  | EvAddSample (env : Env) (req : Request)
  | EvSettings (s : Settings).

Definition apply_event (M : Model) (data_path : string) (st : Store)
    (e : event) : Store :=
  match e with
  | EvAddSample env req => (add_sample M data_path env req st).2
  | EvSettings s => with_settings s st
  end.

Definition run (M : Model) (data_path : string) (evs : list event)
    (st0 : Store) : Store :=
  foldl (apply_event M data_path) st0 evs.

(** The settings that are in force at some instant of a history. *)
Definition settings_seen (evs : list event) (st0 : Store) : list Settings :=
  settings st0
  :: omap (λ e, match e with EvSettings s => Some s | _ => None end) evs.

(** ** Fixtures for the scenarios of section 8 *)

Module Fixtures.

Import Core.

(** Out-of-scope collaborators, fixed to inert stand-ins. *)
Definition inert : Model :=
  mk_Model (λ _ _, true) (λ _, "token"%string)
    (λ env,
       let '(y, w, _) := isocalendar (today env) in
       default (today env) (fromisocalendar y w 1))
    (λ _ _ st, (false, st))
    (λ _ _ _ _ _ st, (None, st))
    (λ _ _, 0) settings
    (λ _ _ st, (false, st)).

Definition M0 : Model := spec_model (λ _, "reference"%string) inert.

Definition settings_1x2 : Settings := mk_Settings 1 2 "admin@x.org".
Definition settings_1x3 : Settings := mk_Settings 1 3 "admin@x.org".

Definition empty_store (s : Settings) : Store := mk_Store [] [] s ∅.

Definition monday : Env := mk_Env (mk_date 2024 1 29) true.
Definition monday_disk_full : Env := mk_Env (mk_date 2024 1 29) false.

Definition alice : User := mk_User 1 "a@x.org" true false.
Definition bob : User := mk_User 2 "b@x.org" true false.
Definition root : User := mk_User 3 "admin@x.org" true true.

Definition post_sample (u : User) (n : string) (f : option bytes) : Request :=
  mk_Request POST u ∅ {[ "name"%string := n ]}
    (match f with Some b => {[ "file"%string := b ]} | None => ∅ end).

Definition post_key (u : User) (k : string) : Request :=
  mk_Request POST u {[ "primary_key"%string := k ]} ∅ ∅.

Definition after (st : Store) (u : User) (n : string) : Store :=
  (add_sample M0 "/data" monday (post_sample u n None) st).2.

(** Scenario B of the specification, continued: three samples committed
    under capacity 3, then the settings lowered to capacity 2. *)
Definition three_committed : Store :=
  after (after (after (empty_store settings_1x3) alice "x") bob "y") alice "z".
Definition lowered : Store := with_settings settings_1x2 three_committed.

(** The message of the one failure response of [add_sample]. *)
Definition no_more_samples : result :=
  err401 (JObject [("message", VStr "No more samples available this week.")]).

(** A store with one sample of Alice's that has a reference sequence on
    disk, and one of Bob's that has none. *)
Definition sample_a : Sample :=
  mk_Sample "2024-05-001" "a@x.org" "x" (mk_date 2024 1 29) 1
    (Some "reference").
Definition sample_b : Sample :=
  mk_Sample "2024-05-002" "b@x.org" "y" (mk_date 2024 1 30) 2 None.
Definition fasta_a : string := "/data/2024/5/reference/2024-05-001_x.fasta".
Definition library : Store :=
  mk_Store [alice; bob; root] [sample_a; sample_b] settings_1x2
    {[ fasta_a := [Byte.x3e; Byte.x78] ]}.

(** The week of scenario A once it is full. *)
Definition full_week : Store :=
  after (after (empty_store settings_1x2) alice "x") bob "y".

(** A history over one week: two submissions fill capacity 2, a third is
    turned away, the capacity is raised to 3, a fourth is taken, the
    capacity is lowered again, a fifth is turned away. *)
Definition history : list event :=
  [EvAddSample monday (post_sample alice "x" None);
   EvAddSample monday (post_sample bob "y" None);
   EvAddSample monday (post_sample alice "z" None);
   EvSettings settings_1x3;
   EvAddSample monday (post_sample alice "z" None);
   EvSettings settings_1x2;
   EvAddSample monday (post_sample bob "w" None)].

(** Three calls arriving together, and a schedule that interleaves them:
    the second caller wins the lock first, the third next, the first last. *)
Definition three_calls : list (string * string * Env) :=
  [("a@x.org"%string, "x"%string, monday);
   ("b@x.org"%string, "y"%string, monday);
   ("c@x.org"%string, "z"%string, monday)].

Definition interleaved : list nat :=
  [0; 1; 2; 1; 0; 1; 2; 1; 1; 2; 1; 2; 2; 0; 2; 0; 0; 2]%nat.

Definition raced : Concurrent.config :=
  Concurrent.run_schedule (λ _, "reference"%string) "/data" interleaved
    (Concurrent.arrive (empty_store settings_1x2) three_calls).

End Fixtures.



(** ** Vocabulary of the statements *)

(** The sample [s] is the one the request asks for, as far as the caller may
    see it: the key matches, and the caller is an administrator or the
    owner. *)
Definition visible (req : Request) (s : Sample) : Prop :=
  json req !! "primary_key" = Some (primary_key s)
  ∧ (u_is_admin (current_user req) = true
     ∨ email s = u_email (current_user req)).

(** The three conditions under which a reference sequence can be fetched:
    the sample exists for the caller, its description is set, and the file
    is on disk at the conventional path. *)
Definition fetchable (data_path : string) (req : Request) (st : Store)
    (s : Sample) (content : bytes) : Prop :=
  s ∈ samples st ∧ visible req s
  ∧ is_Some (reference_sequence_description s)
  ∧ files st !! filename data_path s = Some content.

Definition unique_emails (st : Store) : Prop :=
  NoDup (map u_email (users st)).

Definition unique_ids (st : Store) : Prop :=
  NoDup (map u_id (users st)).

(** The samples of one owner. *)
Definition samples_of (owner : string) (st : Store) : list Sample :=
  filter (λ s, email s = owner) (samples st).

(** A list of samples by non-increasing date. *)
Definition by_date_desc (l : list Sample) : Prop :=
  StronglySorted (λ a b, datetime.ge (date_ a) (date_ b) = true) l.

(** The sample records and the user records that a response body carries. *)
Definition disclosed_samples (b : payload) : list Sample :=
  match b with
  | JObject fields =>
      concat (map (λ kv : string * value,
                     match kv.2 with
                     | VSample s => [s]
                     | VSamples l => l
                     | _ => []
                     end) fields)
  | _ => []
  end.

Definition disclosed_users (b : payload) : list User :=
  match b with
  | JObject fields =>
      concat (map (λ kv : string * value,
                     match kv.2 with
                     | VUser u => [u]
                     | VUsers l => l
                     | _ => []
                     end) fields)
  | _ => []
  end.

(** A calendar date as [datetime.date] accepts it. *)
Definition valid_date (d : date) : Prop :=
  MINYEAR ≤ year d ≤ MAXYEAR ∧ 1 ≤ month d ≤ 12
  ∧ 1 ≤ day d ≤ _days_in_month (year d) (month d).

(** A numeral without superfluous leading zeros. *)
Definition canonical (s : string) : Prop :=
  s = "0" ∨ ∃ c r, s = String c r ∧ c ≠ "0"%char.

Definition unique_keys (st : Store) : Prop :=
  NoDup (map primary_key (samples st)).

Example isocalendar_2024_01_29 :
  isocalendar (mk_date 2024 1 29) = (2024, 5, 1).
Proof. reflexivity. Qed.

Example isocalendar_2021_01_03 :
  isocalendar (mk_date 2021 1 3) = (2020, 53, 7).
Proof. reflexivity. Qed.

Example isocalendar_2024_12_30 :
  isocalendar (mk_date 2024 12 30) = (2025, 1, 1).
Proof. reflexivity. Qed.

Example fromisocalendar_2024_05 :
  fromisocalendar 2024 5 1 = Some (mk_date 2024 1 29).
Proof. reflexivity. Qed.

Example fromisocalendar_2020_53 :
  fromisocalendar 2020 53 1 = Some (mk_date 2020 12 28).
Proof. reflexivity. Qed.

Example fromisocalendar_2021_53 : fromisocalendar 2021 53 1 = None.
Proof. reflexivity. Qed.

Import Core Fixtures.

(** Scenario A: capacity 2, three submissions. *)
Example scenario_A :
  let st0 := empty_store settings_1x2 in
  let '(o1, st1) := submit (λ _, "reference"%string) "/data" monday "a" "x" None st0 in
  let '(o2, st2) := submit (λ _, "reference"%string) "/data" monday "b" "y" None st1 in
  let '(o3, st3) := submit (λ _, "reference"%string) "/data" monday "c" "z" None st2 in
  o1 = Accepted (mk_Sample "2024-05-001" "a" "x" (mk_date 2024 1 29) 1 None)
  ∧ o2 = Accepted (mk_Sample "2024-05-002" "b" "y" (mk_date 2024 1 29) 2 None)
  ∧ o3 = Rejected CapacityExceeded
  ∧ st3 = st2.
Proof. vm_compute. done. Qed.

(** * Properties of the view functions *)

(** ** Helper lemmas: dates, ordering, unique keys *)

Lemma date_ge_not_lt (a b : date) : datetime.ge a b = negb (datetime.lt a b).
Proof.
  unfold datetime.ge, datetime.lt.
  destruct (Z.ltb_spec (year b) (year a)), (Z.ltb_spec (year a) (year b)),
    (Z.eqb_spec (year a) (year b)), (Z.ltb_spec (month b) (month a)),
    (Z.ltb_spec (month a) (month b)), (Z.eqb_spec (month a) (month b)),
    (Z.leb_spec (day b) (day a)), (Z.ltb_spec (day a) (day b));
    simpl; try reflexivity; lia.
Qed.

Lemma insert_desc_perm (s : Sample) (l : list Sample) :
  Permutation (insert_desc s l) (s :: l).
Proof.
  induction l as [|x l IH]; simpl; [done|].
  destruct (datetime.ge (date_ s) (date_ x)); [done|].
  rewrite IH. apply perm_swap.
Qed.

Lemma order_by_date_desc_perm (l : list Sample) :
  Permutation (order_by_date_desc l) l.
Proof.
  induction l as [|x l IH]; simpl; [done|].
  unfold order_by_date_desc in *. simpl.
  rewrite insert_desc_perm. by constructor.
Qed.

Lemma split_by_week_perm (start : date) (l : list Sample) :
  Permutation
    (filter (λ s, datetime.ge (date_ s) start = true) l
     ++ filter (λ s, datetime.lt (date_ s) start = true) l) l.
Proof.
  induction l as [|x l IH]; [done|].
  rewrite !filter_cons.
  pose proof (date_ge_not_lt (date_ x) start) as Hx.
  destruct (datetime.lt (date_ x) start) eqn:E; simpl in Hx.
  - rewrite decide_False by (rewrite Hx; done).
    rewrite decide_True by done.
    rewrite <- Permutation_middle. by constructor.
  - rewrite decide_True by done. rewrite decide_False by done.
    simpl. by constructor.
Qed.

(** Under a uniqueness constraint on [primary_key], selecting by key yields
    no row when no sample carries the key, and the one sample that carries it
    otherwise. *)
Lemma select_by_key (k : option string) (l : list Sample) :
  NoDup (map primary_key l) →
  (filter (λ s, k = Some (primary_key s)) l = []
   ∧ ∀ s, s ∈ l → k ≠ Some (primary_key s))
  ∨ (∃ s, s ∈ l ∧ k = Some (primary_key s)
          ∧ filter (λ s, k = Some (primary_key s)) l = [s]).
Proof.
  induction l as [|x l IH]; intros Hnd.
  - left. split; [done|]. by intros s ?%elem_of_nil.
  - simpl in Hnd. apply NoDup_cons in Hnd as [Hx Hnd].
    rewrite filter_cons.
    destruct (decide (k = Some (primary_key x))) as [Hk|Hk].
    + right. exists x. split; [by left|]. split; [done|]. f_equal.
      destruct (IH Hnd) as [[Hnil _]|(s & Hs & Hks & _)]; [done|].
      exfalso. apply Hx. rewrite Hk in Hks. injection Hks as ->.
      apply list_elem_of_fmap. by exists s.
    + destruct (IH Hnd) as [[Hnil Hall]|(s & Hs & Hks & Heq)].
      * left. split; [done|].
        intros s [->|Hs]%elem_of_cons; [done|by apply Hall].
      * right. exists s. split; [by right|]. by split.
Qed.

Lemma select_by_key_found (s : Sample) (l : list Sample) :
  NoDup (map primary_key l) → s ∈ l →
  filter (λ x, Some (primary_key s) = Some (primary_key x)) l = [s].
Proof.
  intros Hnd Hs.
  destruct (select_by_key (Some (primary_key s)) l Hnd)
    as [[_ Hall]|(x & Hx & Hk & Heq)].
  - by destruct (Hall s Hs).
  - rewrite Heq. f_equal. injection Hk as Hk.
    clear Heq. induction l as [|y l IH]; [by apply elem_of_nil in Hs|].
    simpl in Hnd. apply NoDup_cons in Hnd as [Hy Hnd].
    apply elem_of_cons in Hs as [->|Hs], Hx as [->|Hx]; try done.
    * exfalso. apply Hy. rewrite Hk. apply list_elem_of_fmap. by exists x.
    * exfalso. apply Hy. rewrite <- Hk. apply list_elem_of_fmap. by exists s.
    * by apply IH.
Qed.

(** ** [reference_sequence] *)

Lemma filter_by_elem (req : Request) (st : Store) (s : Sample) :
  s ∈ filter_by req st → s ∈ samples st ∧ visible req s.
Proof.
  unfold filter_by, visible.
  destruct (u_is_admin (current_user req)); simpl;
    rewrite ?list_elem_of_filter; intuition.
Qed.

Lemma filter_by_unique (req : Request) (st : Store) :
  unique_keys st →
  (filter_by req st = [] ∧ ∀ s, s ∈ samples st → ¬ visible req s)
  ∨ (∃ s, s ∈ samples st ∧ visible req s ∧ filter_by req st = [s]).
Proof.
  intros Hnd. unfold filter_by, visible.
  destruct (select_by_key (json req !! "primary_key") (samples st) Hnd)
    as [[-> Hall]|(s & Hs & Hk & ->)].
  - left. split; [by destruct (negb _)|]. intros s Hs [Hk _].
    by apply (Hall s).
  - destruct (u_is_admin (current_user req)); simpl.
    + right. exists s. auto.
    + rewrite filter_cons, filter_nil.
      destruct (decide (email s = u_email (current_user req))) as [He|He].
      * right. exists s. auto.
      * left. split; [done|]. intros x Hx [Hkx [?|Hex]]; [done|].
        assert (x = s) as ->; [|done].
        assert (filter (λ y, Some (primary_key s) = Some (primary_key y))
                  (samples st) = [s]) as E1
          by (by apply select_by_key_found).
        assert (x ∈ [s]) as Hin.
        { rewrite <- E1. apply list_elem_of_filter. split; [congruence|done]. }
        by apply list_elem_of_singleton in Hin.
Qed.

Lemma reference_sequence_ok_inv (data_path : string) (req : Request)
    (st : Store) (p : string) (content : bytes) :
  reference_sequence data_path req st = ok (Attachment p content) →
  ∃ s, filter_by req st = [s]
       ∧ is_Some (reference_sequence_description s)
       ∧ p = filename data_path s ∧ files st !! p = Some content.
Proof.
  unfold reference_sequence, scalar_one_or_none, ok, err401.
  destruct (filter_by req st) as [|s [|??]]; try discriminate.
  destruct (reference_sequence_description s) eqn:Ed; try discriminate.
  destruct (files st !! filename data_path s) eqn:Ef; try discriminate.
  intros [= <- <-]. exists s. eauto.
Qed.

Lemma reference_sequence_fetch (data_path : string) (req : Request)
    (st : Store) (s : Sample) (content : bytes) :
  filter_by req st = [s] →
  is_Some (reference_sequence_description s) →
  files st !! filename data_path s = Some content →
  reference_sequence data_path req st
  = ok (Attachment (filename data_path s) content).
Proof.
  intros Hf [d Hd] Hc. unfold reference_sequence. rewrite Hf. simpl.
  by rewrite Hd, Hc.
Qed.

(** The f-string of the handler and the path convention of the
    specification are the same string. *)
Lemma filename_path_of (data_path : string) (s : Sample) :
  filename data_path s = path_of data_path s.
Proof.
  unfold filename, path_of, weekBucket, bucketFor.
  by destruct (isocalendar (date_ s)) as [[y w] d].
Qed.

(** C5. Whenever the download handler serves a file, it is the file of a
    stored sample with a reference sequence whose key was requested, and it
    is addressed exactly at
    [{dataRoot}/{isoYear}/{isoWeek}/reference/{primaryKey}_{name}.fasta],
    where (isoYear, isoWeek) is the ISO calendar year and week of the
    sample's date, printed in decimal. *)
Theorem reference_file_path_convention (data_path : string) (req : Request)
    (st : Store) (p : string) (content : bytes) :
  reference_sequence data_path req st = ok (Attachment p content) →
  ∃ s isoYear isoWeek isoDay,
    s ∈ samples st
    ∧ json req !! "primary_key" = Some (primary_key s)
    ∧ is_Some (reference_sequence_description s)
    ∧ isocalendar (date_ s) = (isoYear, isoWeek, isoDay)
    ∧ p = data_path +:+ "/" +:+ pretty isoYear +:+ "/" +:+ pretty isoWeek
          +:+ "/reference/" +:+ primary_key s +:+ "_" +:+ name s +:+ ".fasta"
    ∧ p = path_of data_path s
    ∧ files st !! p = Some content.
Proof.
  intros Hok.
  destruct (reference_sequence_ok_inv _ _ _ _ _ Hok) as (s & Hf & Hd & -> & Hc).
  destruct (filter_by_elem req st s) as [Hs [Hk _]];
    [rewrite Hf; by left|].
  destruct (isocalendar (date_ s)) as [[y w] d] eqn:Eiso.
  exists s, y, w, d. repeat split; try done.
  - unfold filename. by rewrite Eiso.
  - apply filename_path_of.
Qed.

Lemma reference_file_path_convention_witness :
  reference_sequence "/data" (post_key alice "2024-05-001") library
  = ok (Attachment fasta_a [Byte.x3e; Byte.x78])
  ∧ ∃ s isoYear isoWeek isoDay,
      s ∈ samples library
      ∧ json (post_key alice "2024-05-001") !! "primary_key"
        = Some (primary_key s)
      ∧ is_Some (reference_sequence_description s)
      ∧ isocalendar (date_ s) = (isoYear, isoWeek, isoDay)
      ∧ fasta_a
        = "/data" +:+ "/" +:+ pretty isoYear +:+ "/" +:+ pretty isoWeek
          +:+ "/reference/" +:+ primary_key s +:+ "_" +:+ name s +:+ ".fasta"
      ∧ fasta_a = path_of "/data" s
      ∧ files library !! fasta_a = Some [Byte.x3e; Byte.x78].
Proof.
  split; [vm_compute; reflexivity|].
  apply (reference_file_path_convention "/data"
           (post_key alice "2024-05-001") library fasta_a
           [Byte.x3e; Byte.x78]).
  vm_compute; reflexivity.
Defined.

Lemma reference_sequence_total (data_path : string) (req : Request)
    (st : Store) :
  unique_keys st →
  (∃ s content, fetchable data_path req st s content
     ∧ reference_sequence data_path req st
       = ok (Attachment (filename data_path s) content))
  ∨ ((¬ ∃ s content, fetchable data_path req st s content)
     ∧ reference_sequence data_path req st
       ∈ [err401 (JText "Sample not found");
          err401 (JText "Sample does not contain a reference sequence");
          err401 (JText "Fasta file not found")]).
Proof.
  intros Hnd. unfold fetchable.
  destruct (filter_by_unique req st Hnd) as [[Hf Hall]|(s & Hs & Hv & Hf)].
  - right. split; [intros (s & c & Hs & Hv & _); by apply (Hall s)|].
    unfold reference_sequence. rewrite Hf. simpl. by left.
  - assert (∀ x, x ∈ samples st → visible req x → x = s) as Huniq.
    { intros x Hx Hvx.
      assert (x ∈ filter_by req st) as Hin.
      { unfold filter_by. destruct Hvx as [Hk Hown].
        destruct (u_is_admin (current_user req)); simpl;
          rewrite ?list_elem_of_filter; destruct Hown; try done; auto. }
      rewrite Hf in Hin. by apply list_elem_of_singleton in Hin. }
    unfold reference_sequence. rewrite Hf. simpl.
    destruct (reference_sequence_description s) as [d|] eqn:Ed.
    + destruct (files st !! filename data_path s) as [c|] eqn:Ec.
      * left. exists s, c. eauto 10.
      * right. split; [|right; right; by left].
        intros (x & c & Hx & Hvx & _ & Hc).
        rewrite (Huniq x Hx Hvx) in Hc. congruence.
    + right. split; [|right; by left].
      intros (x & c & Hx & Hvx & [d Hd] & _).
      rewrite (Huniq x Hx Hvx) in Hd. congruence.
Qed.

(** C6. With primary keys unique, fetching a reference sequence returns the
    stored bytes of a file if and only if the requested sample exists for
    the caller, its description is set, and the file exists at the
    conventional path; in every other case the handler returns one of its
    three not-found errors; in all cases the store is left as it was. *)
Theorem fetch_iff_sample_flag_and_file (M : Model) (data_path : string)
    (env : Env) (req : Request) (st : Store) :
  unique_keys st →
  (∀ p content,
     reference_sequence data_path req st = ok (Attachment p content)
     ↔ ∃ s, fetchable data_path req st s content ∧ p = filename data_path s)
  ∧ ((¬ ∃ s content, fetchable data_path req st s content) →
     reference_sequence data_path req st
     ∈ [err401 (JText "Sample not found");
        err401 (JText "Sample does not contain a reference sequence");
        err401 (JText "Fasta file not found")])
  ∧ handle M data_path ReferenceSequence env req st
    = (reference_sequence data_path req st, st).
Proof.
  intros Hnd. split; [|split; [|done]].
  - intros p content. split.
    + intros Hok.
      destruct (reference_sequence_ok_inv _ _ _ _ _ Hok)
        as (s & Hf & Hd & -> & Hc).
      destruct (filter_by_elem req st s) as [Hs Hv]; [rewrite Hf; by left|].
      exists s. unfold fetchable. by rewrite <- Hc.
    + intros (s & (Hs & Hv & Hd & Hc) & ->).
      destruct (reference_sequence_total data_path req st Hnd)
        as [(x & c & (Hx & Hvx & _ & Hcx) & Hr)|[Hno _]].
      * destruct (filter_by_unique req st Hnd)
          as [[_ Hall]|(y & _ & _ & Hf)]; [by destruct (Hall s Hs)|].
        assert (∀ z, z ∈ samples st → visible req z → z ∈ filter_by req st)
          as Hin.
        { intros z Hz [Hk Hown]. unfold filter_by.
          destruct (u_is_admin (current_user req)); simpl;
            rewrite ?list_elem_of_filter; destruct Hown; try done; auto. }
        pose proof (Hin s Hs Hv) as H1. pose proof (Hin x Hx Hvx) as H2.
        rewrite Hf in H1, H2.
        apply list_elem_of_singleton in H1, H2. subst.
        rewrite Hr. congruence.
      * destruct Hno. exists s, content. by unfold fetchable.
  - intros Hno.
    destruct (reference_sequence_total data_path req st Hnd)
      as [(x & c & Hfx & _)|[_ Hr]]; [|done].
    destruct Hno. eauto.
Qed.

Lemma fetch_iff_sample_flag_and_file_witness :
  unique_keys library
  ∧ reference_sequence "/data" (post_key alice "2024-05-001") library
    = ok (Attachment fasta_a [Byte.x3e; Byte.x78])
  ∧ reference_sequence "/data" (post_key bob "2024-05-002") library
    = err401 (JText "Sample does not contain a reference sequence")
  ∧ handle inert "/data" ReferenceSequence monday
      (post_key alice "2024-05-001") library
    = (reference_sequence "/data" (post_key alice "2024-05-001") library,
       library).
Proof.
  assert (unique_keys library) as Hnd.
  { unfold unique_keys. apply (bool_decide_unpack _). vm_compute. exact I. }
  destruct (fetch_iff_sample_flag_and_file inert "/data" monday
              (post_key alice "2024-05-001") library Hnd) as (Hiff & _ & Hst).
  split; [exact Hnd|]. split; [|split; [reflexivity|exact Hst]].
  apply Hiff. exists sample_a. split; [|reflexivity].
  split; [left|]. split; [split; [reflexivity|right; reflexivity]|].
  split; [by eexists|reflexivity].
Defined.

(** C8. With primary keys unique: a download by a caller who is not an
    administrator succeeds only for a sample whose owner email is the
    caller's; such a caller asking for the key of somebody else's sample
    gets the very error, "Sample not found", that a key carried by no sample
    gets; an administrator is served the file of any sample that has one. *)
Theorem download_restricted_to_owner (data_path : string) (req : Request)
    (st : Store) :
  unique_keys st →
  (u_is_admin (current_user req) = false →
   ∀ p content,
     reference_sequence data_path req st = ok (Attachment p content) →
     ∃ s, s ∈ samples st
          ∧ json req !! "primary_key" = Some (primary_key s)
          ∧ email s = u_email (current_user req)
          ∧ p = filename data_path s)
  ∧ (u_is_admin (current_user req) = false →
     ∀ s, s ∈ samples st →
          json req !! "primary_key" = Some (primary_key s) →
          email s ≠ u_email (current_user req) →
          reference_sequence data_path req st
          = err401 (JText "Sample not found"))
  ∧ ((∀ s, s ∈ samples st →
           json req !! "primary_key" ≠ Some (primary_key s)) →
     reference_sequence data_path req st = err401 (JText "Sample not found"))
  ∧ (u_is_admin (current_user req) = true →
     ∀ s content,
       s ∈ samples st →
       json req !! "primary_key" = Some (primary_key s) →
       is_Some (reference_sequence_description s) →
       files st !! filename data_path s = Some content →
       reference_sequence data_path req st
       = ok (Attachment (filename data_path s) content)).
Proof.
  intros Hnd. repeat split.
  - intros Hna p content Hok.
    destruct (reference_sequence_ok_inv _ _ _ _ _ Hok)
      as (s & Hf & _ & -> & _).
    destruct (filter_by_elem req st s) as [Hs [Hk Hown]];
      [rewrite Hf; by left|].
    exists s. repeat split; try done.
    destruct Hown; [congruence|done].
  - intros Hna s Hs Hk Hne.
    destruct (filter_by_unique req st Hnd) as [[Hf _]|(x & Hx & Hvx & Hf)].
    + unfold reference_sequence. by rewrite Hf.
    + exfalso. destruct Hvx as [Hkx [?|Hex]]; [congruence|].
      assert (filter (λ y, Some (primary_key s) = Some (primary_key y))
                (samples st) = [s]) as E1 by (by apply select_by_key_found).
      assert (x ∈ [s]) as Hin.
      { rewrite <- E1. apply list_elem_of_filter. split; [congruence|done]. }
      apply list_elem_of_singleton in Hin. congruence.
  - intros Hnone.
    destruct (filter_by_unique req st Hnd) as [[Hf _]|(x & Hx & [Hkx _] & _)].
    + unfold reference_sequence. by rewrite Hf.
    + by destruct (Hnone x Hx).
  - intros Ha s content Hs Hk Hd Hc.
    apply reference_sequence_fetch; try done.
    unfold filter_by. rewrite Ha. simpl. rewrite Hk.
    by apply select_by_key_found.
Qed.

Lemma download_restricted_to_owner_witness :
  unique_keys library
  ∧ reference_sequence "/data" (post_key bob "2024-05-001") library
    = err401 (JText "Sample not found")
  ∧ reference_sequence "/data" (post_key bob "2024-99-001") library
    = err401 (JText "Sample not found")
  ∧ reference_sequence "/data" (post_key root "2024-05-001") library
    = ok (Attachment fasta_a [Byte.x3e; Byte.x78]).
Proof.
  assert (unique_keys library) as Hnd.
  { unfold unique_keys. apply (bool_decide_unpack _). vm_compute. exact I. }
  destruct (download_restricted_to_owner "/data"
              (post_key bob "2024-05-001") library Hnd) as (_ & Hother & _).
  destruct (download_restricted_to_owner "/data"
              (post_key bob "2024-99-001") library Hnd) as (_ & _ & Hnone & _).
  destruct (download_restricted_to_owner "/data"
              (post_key root "2024-05-001") library Hnd) as (_ & _ & _ & Hadm).
  split; [exact Hnd|]. split; [|split].
  - apply (Hother eq_refl sample_a); [left|reflexivity|discriminate].
  - apply Hnone. intros s Hs.
    apply elem_of_cons in Hs as [->|Hs]; [discriminate|].
    apply elem_of_cons in Hs as [->|Hs]; [discriminate|].
    by apply elem_of_nil in Hs.
  - apply (Hadm eq_refl sample_a); [left|reflexivity|by eexists|reflexivity].
Defined.

(** ** [samples] *)

(** C7. The listing of [GET /samples] splits the caller's samples in two:
    [current_samples] holds exactly those whose date is greater than or
    equal to the start of the week, [previous_samples] exactly the others;
    together the two lists are a rearrangement of the caller's samples
    (nothing omitted, nothing repeated), and no sample is in both. *)
Theorem samples_listing_partition (M : Model) (env : Env) (req : Request)
    (st : Store) :
  let mine :=
    filter (λ s, email s = u_email (current_user req)) (samples st) in
  let start := get_start_of_week M env in
  let cur := samples_current M env req st in
  let prev := samples_previous M env req st in
  samples_view M env req st
  = ok (JObject [("current_samples", VSamples cur);
                 ("previous_samples", VSamples prev)])
  ∧ Permutation (cur ++ prev) mine
  ∧ (∀ s, s ∈ cur ↔ s ∈ mine ∧ datetime.ge (date_ s) start = true)
  ∧ (∀ s, s ∈ prev ↔ s ∈ mine ∧ datetime.ge (date_ s) start = false)
  ∧ (∀ s, ¬ (s ∈ cur ∧ s ∈ prev)).
Proof.
  intros mine start cur prev.
  assert (∀ s, s ∈ cur ↔ s ∈ mine ∧ datetime.ge (date_ s) start = true)
    as Hcur.
  { intros s. unfold cur, samples_current.
    rewrite (order_by_date_desc_perm _), list_elem_of_filter. tauto. }
  assert (∀ s, s ∈ prev ↔ s ∈ mine ∧ datetime.ge (date_ s) start = false)
    as Hprev.
  { intros s. unfold prev, samples_previous.
    rewrite (order_by_date_desc_perm _), list_elem_of_filter.
    rewrite date_ge_not_lt. fold mine start.
    destruct (datetime.lt (date_ s) start); simpl; intuition congruence. }
  split; [done|]. split; [|split; [done|split; [done|]]].
  - unfold cur, prev, samples_current, samples_previous.
    rewrite !order_by_date_desc_perm. apply split_by_week_perm.
  - intros s [[_ H1]%Hcur [_ H2]%Hprev]. congruence.
Qed.

(** ** Status codes *)

(** C9. Every response any endpoint returns carries status 200 or 401, so
    every response that is not a success carries 401; among them the
    failures that are not authentication errors: an unknown sample key, a
    fasta file missing on disk, no sample returned by [add_new_sample]
    (reported as weekly capacity exhaustion), a failed signup, and a caller
    who is not an administrator on each of the three admin routes. *)
Theorem every_error_response_is_401 (M : Model) (data_path : string)
    (env : Env) (req : Request) (st : Store) :
  (∀ ep r, (handle M data_path ep env req st).1 = Return r →
           status r = 200 ∨ status r = 401)
  ∧ ((∀ s, s ∈ samples st →
           json req !! "primary_key" ≠ Some (primary_key s)) →
     (handle M data_path ReferenceSequence env req st).1
     = Return (mk_Response (JText "Sample not found") 401))
  ∧ (∀ s, filter_by req st = [s] →
          is_Some (reference_sequence_description s) →
          files st !! filename data_path s = None →
          (handle M data_path ReferenceSequence env req st).1
          = Return (mk_Response (JText "Fasta file not found") 401))
  ∧ ((add_new_sample M (u_email (current_user req))
        (default "" (form req !! "name")) (upload req !! "file")
        data_path env st).1 = None →
     (handle M data_path AddSample env req st).1
     = Return (mk_Response
                 (JObject
                    [("message",
                      VStr "No more samples available this week.")]) 401))
  ∧ ((add_new_user M (json req !! "email") (json req !! "password") st).1
     = false →
     (handle M data_path Signup env req st).1
     = Return (mk_Response (JObject [("result", VStr "Signup failed")]) 401))
  ∧ (u_is_admin (current_user req) = false →
     ∀ ep, ep ∈ [AdminSettings; AdminAllSamples; AdminAllUsers] →
           (handle M data_path ep env req st).1
           = Return (mk_Response (JText "Admin account required") 401)).
Proof.
  split; [|split; [|split; [|split; [|split]]]].
  - intros ep r. destruct ep; simpl.
    + unfold login, ok, err401.
      destruct (scalar_one_or_none _) as [e|[u|]]; [done| |];
        repeat (destruct (negb _)); intros [= <-]; simpl; auto.
    + unfold signup, ok, err401.
      destruct (add_new_user M _ _ st) as [[] st'];
        intros [= <-]; simpl; auto.
    + unfold remaining, ok. intros [= <-]; simpl; auto.
    + unfold samples_view, ok. intros [= <-]; simpl; auto.
    + unfold reference_sequence, ok, err401.
      destruct (scalar_one_or_none _) as [e|[s|]]; [done| |];
        [destruct (reference_sequence_description s);
         [destruct (files st !! _)|]|];
        intros [= <-]; simpl; auto.
    + unfold add_sample, ok, err401.
      destruct (add_new_sample M _ _ _ _ _ st) as [[s|] st'];
        intros [= <-]; simpl; auto.
    + unfold admin_settings, ok, err401.
      destruct (negb _); [intros [= <-]; simpl; auto|].
      destruct (method req); [intros [= <-]; simpl; auto|].
      destruct (set_current_settings M _ _ st) as [[] st'];
        [intros [= <-]; simpl; auto|done].
    + unfold admin_all_samples, ok, err401.
      destruct (negb _); [intros [= <-]; simpl; auto|].
      destruct (isocalendar (today env)) as [[y w] d].
      destruct (fromisocalendar y w 1); [intros [= <-]; simpl; auto|done].
    + unfold admin_all_users, ok, err401.
      destruct (u_is_admin _); intros [= <-]; simpl; auto.
  - intros Hnone. simpl. unfold reference_sequence.
    assert (filter_by req st = []) as ->; [|done].
    assert (filter (λ s, json req !! "primary_key" = Some (primary_key s))
              (samples st) = []) as E.
    { induction (samples st) as [|x l IH]; [done|].
      rewrite filter_cons, decide_False by (apply Hnone; by left).
      apply IH. intros s Hs. apply Hnone. by right. }
    unfold filter_by. rewrite E. by destruct (negb _).
  - intros s Hf [d Hd] Hc. simpl. unfold reference_sequence.
    rewrite Hf. simpl. by rewrite Hd, Hc.
  - simpl. unfold add_sample.
    destruct (add_new_sample M _ _ _ _ _ st) as [[s|] st']; simpl; [done|].
    by intros _.
  - simpl. unfold signup.
    destruct (add_new_user M _ _ st) as [[] st']; simpl; [done|]. by intros _.
  - intros Hna ep Hep.
    apply elem_of_cons in Hep as [->|Hep]; [|
      apply elem_of_cons in Hep as [->|Hep]; [|
        apply elem_of_cons in Hep as [->|Hep]; [|by apply elem_of_nil in Hep]]];
      simpl.
    + unfold admin_settings. by rewrite Hna.
    + unfold admin_all_samples. by rewrite Hna.
    + unfold admin_all_users. by rewrite Hna.
Qed.

Lemma every_error_response_is_401_witness :
  (handle inert "/data" ReferenceSequence monday
     (post_key alice "2024-99-001") library).1
  = Return (mk_Response (JText "Sample not found") 401)
  ∧ (handle inert "/data" AddSample monday
       (post_sample alice "x" None) library).1
    = Return (mk_Response
                (JObject
                   [("message", VStr "No more samples available this week.")])
                401)
  ∧ (handle inert "/data" Signup monday
       (post_sample alice "x" None) library).1
    = Return (mk_Response (JObject [("result", VStr "Signup failed")]) 401)
  ∧ (handle inert "/data" AdminAllUsers monday
       (post_sample alice "x" None) library).1
    = Return (mk_Response (JText "Admin account required") 401).
Proof.
  split; [|split; [|split]].
  - destruct (every_error_response_is_401 inert "/data" monday
                (post_key alice "2024-99-001") library)
      as (_ & Hkey & _).
    apply Hkey. intros s Hs.
    apply elem_of_cons in Hs as [->|Hs]; [discriminate|].
    apply elem_of_cons in Hs as [->|Hs]; [discriminate|].
    by apply elem_of_nil in Hs.
  - destruct (every_error_response_is_401 inert "/data" monday
                (post_sample alice "x" None) library)
      as (_ & _ & _ & Hcap & _).
    apply Hcap. reflexivity.
  - destruct (every_error_response_is_401 inert "/data" monday
                (post_sample alice "x" None) library)
      as (_ & _ & _ & _ & Hsign & _).
    apply Hsign. reflexivity.
  - destruct (every_error_response_is_401 inert "/data" monday
                (post_sample alice "x" None) library)
      as (_ & _ & _ & _ & _ & Hadm).
    apply Hadm; [reflexivity|]. right. right. left.
Defined.

(** ** [admin_settings] *)

(** C10. When an administrator posts to [/admin/settings] and
    [set_current_settings] reports failure, the view function returns no
    response at all: it runs off its end ([None]) instead of returning the
    "Failed to update settings" message with status 401, or any other
    response. *)
Theorem admin_settings_failure_returns_nothing (M : Model) (req : Request)
    (st : Store) :
  u_is_admin (current_user req) = true →
  method req = POST →
  (set_current_settings M (u_email (current_user req)) (json req) st).1
  = false →
  (admin_settings M req st).1 = ReturnNone
  ∧ (admin_settings M req st).1
    ≠ err401 (JObject [("message", VStr "Failed to update settings")])
  ∧ ∀ r, (admin_settings M req st).1 ≠ Return r.
Proof.
  intros Ha Hm Hset. unfold admin_settings. rewrite Ha, Hm. simpl.
  destruct (set_current_settings M _ _ st) as [updated st'].
  simpl in Hset. subst updated. simpl. by repeat split.
Qed.

Lemma admin_settings_failure_returns_nothing_witness :
  (admin_settings inert (mk_Request POST root ∅ ∅ ∅) library).1 = ReturnNone
  ∧ (admin_settings inert (mk_Request POST root ∅ ∅ ∅) library).1
    ≠ err401 (JObject [("message", VStr "Failed to update settings")])
  ∧ ∀ r, (admin_settings inert (mk_Request POST root ∅ ∅ ∅) library).1
         ≠ Return r.
Proof.
  apply (admin_settings_failure_returns_nothing inert
           (mk_Request POST root ∅ ∅ ∅) library); reflexivity.
Defined.

(** ** [remaining] *)

(** C2 fails as stated: three samples are committed under capacity 3 and the
    settings are then lowered to capacity 2; [GET /remaining] answers -1,
    where the clamped [remainingThisWeek] of the specification is 0. *)
Lemma remaining_negative_after_lowering :
  samples lowered = samples three_committed
  ∧ count_samples_this_week M0 monday lowered = 3
  ∧ capacity (get_current_settings M0 lowered) = 2
  ∧ remaining M0 monday lowered = ok (JObject [("remaining", VInt (-1))])
  ∧ remainingThisWeek monday lowered = 0.
Proof. vm_compute. by repeat split. Qed.

(** C2, amended. [GET /remaining] returns the plate rows times the plate
    columns of the current settings minus the count of samples of the
    current week, as an integer that is not clamped: it is non-negative
    exactly when the count does not exceed the capacity, and only then does
    it agree with the clamped [remainingThisWeek] of the specification. *)
Theorem remaining_is_capacity_minus_count (M : Model) (env : Env)
    (st : Store) :
  let s := get_current_settings M st in
  let n := plate_n_rows s * plate_n_cols s
           - count_samples_this_week M env st in
  remaining M env st = ok (JObject [("remaining", VInt n)])
  ∧ (0 ≤ n ↔ count_samples_this_week M env st
              ≤ plate_n_rows s * plate_n_cols s)
  ∧ ∀ describe rest,
      M = spec_model describe rest →
      n = capacity (settings st)
          - countInWeek (bucketFor (today env)) (samples st)
      ∧ (n = remainingThisWeek env st
         ↔ countInWeek (bucketFor (today env)) (samples st)
           ≤ capacity (settings st)).
Proof.
  intros s n. split; [done|]. split; [unfold n; lia|].
  intros describe rest ->. unfold n, s, remainingThisWeek, capacity. simpl.
  unfold count_samples_this_week_spec, capacity. lia.
Qed.

Lemma remaining_is_capacity_minus_count_witness :
  remaining M0 monday (empty_store settings_1x2)
  = ok (JObject [("remaining", VInt 2)])
  ∧ remaining M0 monday (after (empty_store settings_1x2) alice "x")
    = ok (JObject [("remaining", VInt 1)])
  ∧ 1 = remainingThisWeek monday (after (empty_store settings_1x2) alice "x").
Proof.
  split; [|split].
  - apply (remaining_is_capacity_minus_count M0 monday
             (empty_store settings_1x2)).
  - apply (remaining_is_capacity_minus_count M0 monday
             (after (empty_store settings_1x2) alice "x")).
  - destruct (remaining_is_capacity_minus_count M0 monday
                (after (empty_store settings_1x2) alice "x"))
      as (_ & _ & Hspec).
    destruct (Hspec (λ _, "reference"%string) inert eq_refl) as [_ Hclamp].
    apply Hclamp. vm_compute. discriminate.
Defined.

(** ** [add_sample] *)

(** C4 fails as stated.  Under the orchestrator of the specification, a
    submission with an empty name into a week with free capacity is
    [Rejected InvalidInput], and a submission whose upload cannot be written
    is [Failed StorageFailure] with the sample committed; at the boundary
    both get the response of a full week, "No more samples available this
    week." with status 401. *)
Lemma failures_reported_as_capacity_exhaustion :
  let describe := λ _ : bytes, "reference"%string in
  let st0 := empty_store settings_1x2 in
  let full := after (after st0 alice "x") bob "y" in
  (submit describe "/data" monday "a@x.org" "" None st0).1
  = Rejected InvalidInput
  ∧ (add_sample M0 "/data" monday (post_sample alice "" None) st0).1
    = no_more_samples
  ∧ (submit describe "/data" monday_disk_full "a@x.org" "x"
       (Some [Byte.x3e]) st0).1
    = Failed StorageFailure
  ∧ add_sample M0 "/data" monday_disk_full
      (post_sample alice "x" (Some [Byte.x3e])) st0
    = (no_more_samples, after st0 alice "x")
  ∧ (submit describe "/data" monday "a@x.org" "z" None full).1
    = Rejected CapacityExceeded
  ∧ (add_sample M0 "/data" monday (post_sample alice "z" None) full).1
    = no_more_samples.
Proof. vm_compute. by repeat split. Qed.

(** C4, amended. Every submission through [add_sample] ends in exactly one
    of two responses: status 200 with the new sample record when
    [add_new_sample] returns one, and otherwise the single failure response
    "No more samples available this week." with status 401.  With the
    orchestrator of the specification behind [add_new_sample], [Accepted] is
    the first, and every other terminal state, invalid input and storage
    failure included, is the second; the store is the orchestrator's. *)
Theorem add_sample_two_responses (M : Model) (data_path : string)
    (env : Env) (req : Request) (st : Store) :
  let owner := u_email (current_user req) in
  let sample_name := default "" (form req !! "name") in
  let file := upload req !! "file" in
  ((∃ s, add_new_sample M owner sample_name file data_path env st
         = (Some s, (add_sample M data_path env req st).2)
         ∧ (add_sample M data_path env req st).1
           = ok (JObject [("sample", VSample s)]))
   ∨ (add_new_sample M owner sample_name file data_path env st
      = (None, (add_sample M data_path env req st).2)
      ∧ (add_sample M data_path env req st).1 = no_more_samples))
  ∧ (∀ s, ok (JObject [("sample", VSample s)]) ≠ no_more_samples)
  ∧ ∀ describe rest,
      M = spec_model describe rest →
      (add_sample M data_path env req st).2
      = (submit describe data_path env owner sample_name file st).2
      ∧ match (submit describe data_path env owner sample_name file st).1 with
        | Accepted s =>
            (add_sample M data_path env req st).1
            = ok (JObject [("sample", VSample s)])
        | Rejected _ | Failed _ =>
            (add_sample M data_path env req st).1 = no_more_samples
        end.
Proof.
  intros owner sample_name file. split; [|split; [done|]].
  - unfold add_sample. fold owner sample_name file.
    destruct (add_new_sample M owner sample_name file data_path env st)
      as [[s|] st']; simpl; [left; by exists s|by right].
  - intros describe rest ->. unfold add_sample. simpl.
    fold owner sample_name file. unfold add_new_sample_spec.
    destruct (submit describe data_path env owner sample_name file st)
      as [[s|r|f] st']; by simpl.
Qed.

Lemma add_sample_two_responses_witness :
  (add_sample M0 "/data" monday (post_sample alice "x" None)
     (empty_store settings_1x2)).1
  = ok (JObject
          [("sample",
            VSample (mk_Sample "2024-05-001" "a@x.org" "x"
                       (mk_date 2024 1 29) 1 None))]).
Proof.
  destruct (add_sample_two_responses M0 "/data" monday
              (post_sample alice "x" None) (empty_store settings_1x2))
    as (_ & _ & Hspec).
  destruct (Hspec (λ _, "reference"%string) inert eq_refl) as [_ Hm].
  exact Hm.
Defined.

(** * The allocation core *)

(** ** Counting *)

Lemma countInWeek_nil (W : WeekBucket) : countInWeek W [] = 0.
Proof. done. Qed.

Lemma countInWeek_nonneg (W : WeekBucket) (repo : list Sample) :
  0 ≤ countInWeek W repo.
Proof. unfold countInWeek. lia. Qed.

Lemma countInWeek_snoc (W : WeekBucket) (repo : list Sample) (s : Sample) :
  countInWeek W (repo ++ [s])
  = countInWeek W repo + (if decide (weekBucket s = W) then 1 else 0).
Proof.
  unfold countInWeek. rewrite filter_app, length_app, filter_cons, filter_nil.
  destruct (decide (weekBucket s = W)); simpl; lia.
Qed.

Lemma countInWeek_set_description (W : WeekBucket) (key d : string)
    (repo : list Sample) :
  countInWeek W (set_description key d repo) = countInWeek W repo.
Proof.
  unfold countInWeek. f_equal.
  induction repo as [|x repo IH]; [done|].
  simpl. rewrite !filter_cons.
  assert (weekBucket
            (if bool_decide (primary_key x = key)
             then mk_Sample (primary_key x) (email x) (name x) (date_ x)
                    (ordinal_in_week x) (Some d)
             else x) = weekBucket x) as ->
    by (by destruct (bool_decide _)).
  destruct (decide (weekBucket x = W)); simpl; by rewrite IH.
Qed.

(** ** One submission *)

Lemma tryReserveSlot_full (W : WeekBucket) (s : Settings)
    (repo : list Sample) :
  capacity s ≤ countInWeek W repo → tryReserveSlot W s repo = None.
Proof.
  intros H. unfold tryReserveSlot.
  by destruct (Z.leb_spec (capacity s) (countInWeek W repo)); [|lia].
Qed.

Lemma tryReserveSlot_Some (W : WeekBucket) (s : Settings)
    (repo : list Sample) (k : Z) :
  tryReserveSlot W s repo = Some k →
  k = countInWeek W repo + 1 ∧ k ≤ capacity s.
Proof.
  unfold tryReserveSlot.
  destruct (Z.leb_spec (capacity s) (countInWeek W repo)); [done|].
  intros [= <-]. lia.
Qed.

Lemma insert_inr (s : Sample) (repo repo' : list Sample) :
  insert s repo = inr repo' → repo' = repo ++ [s].
Proof.
  unfold insert. repeat (destruct (existsb _ _)); try done. by intros [= <-].
Qed.

Lemma reserve_and_insert_inr (owner sample_name : string) (now : date)
    (st st' : Store) (s : Sample) :
  reserve_and_insert owner sample_name now st = inr (inr (s, st')) →
  samples st' = samples st ++ [s] ∧ settings st' = settings st
  ∧ files st' = files st ∧ users st' = users st
  ∧ weekBucket s = bucketFor now
  ∧ ordinal_in_week s = countInWeek (bucketFor now) (samples st) + 1
  ∧ ordinal_in_week s ≤ capacity (settings st).
Proof.
  unfold reserve_and_insert.
  destruct (tryReserveSlot _ _ _) as [k|] eqn:Ek; [|done].
  apply tryReserveSlot_Some in Ek as [-> Hk].
  destruct (insert _ _) as [e|repo'] eqn:Ei; [done|].
  apply insert_inr in Ei as ->. intros [= <- <-]. by simpl.
Qed.

Lemma store_upload_count (describe : bytes → string) (dataRoot : string)
    (env : Env) (s : Sample) (f : option bytes) (st : Store)
    (W : WeekBucket) :
  countInWeek W (samples (store_upload describe dataRoot env s f st).2)
  = countInWeek W (samples st).
Proof.
  unfold store_upload. destruct f as [b|]; [|done].
  destruct (store _ _ _ _ _) as [[p fs']|]; [|done].
  simpl. by rewrite countInWeek_set_description.
Qed.

Lemma store_upload_settings (describe : bytes → string) (dataRoot : string)
    (env : Env) (s : Sample) (f : option bytes) (st : Store) :
  settings (store_upload describe dataRoot env s f st).2 = settings st.
Proof.
  unfold store_upload. destruct f as [b|]; [|done].
  by destruct (store _ _ _ _ _) as [[p fs']|].
Qed.

(** What one run of the orchestrator does to the count of a week: nothing,
    or one more sample in the week of the submission, within the capacity
    in force. *)
Lemma submit_counts (describe : bytes → string) (dataRoot : string)
    (env : Env) (owner sample_name : string) (f : option bytes) (st : Store) :
  let st' := (submit describe dataRoot env owner sample_name f st).2 in
  settings st' = settings st
  ∧ ((∀ W, countInWeek W (samples st') = countInWeek W (samples st))
     ∨ (countInWeek (bucketFor (today env)) (samples st')
        = countInWeek (bucketFor (today env)) (samples st) + 1
        ∧ countInWeek (bucketFor (today env)) (samples st')
          ≤ capacity (settings st)
        ∧ ∀ W, W ≠ bucketFor (today env) →
               countInWeek W (samples st') = countInWeek W (samples st))).
Proof.
  unfold submit.
  destruct (bool_decide _ || bool_decide _); [simpl; auto|].
  assert (∀ s st1,
            reserve_and_insert owner sample_name (today env) st
            = inr (inr (s, st1)) →
            let st' := (store_upload describe dataRoot env s f st1).2 in
            settings st' = settings st
            ∧ ((∀ W, countInWeek W (samples st') = countInWeek W (samples st))
               ∨ (countInWeek (bucketFor (today env)) (samples st')
                  = countInWeek (bucketFor (today env)) (samples st) + 1
                  ∧ countInWeek (bucketFor (today env)) (samples st')
                    ≤ capacity (settings st)
                  ∧ ∀ W, W ≠ bucketFor (today env) →
                         countInWeek W (samples st')
                         = countInWeek W (samples st)))) as Hgood.
  { intros s st1 (Hs & Hset & _ & _ & HW & Hord & Hcap)%reserve_and_insert_inr.
    simpl.
    split; [by rewrite store_upload_settings|].
    right. rewrite !store_upload_count.
    rewrite Hs, countInWeek_snoc, decide_True by done.
    split; [done|]. split; [lia|].
    intros W HWne. rewrite store_upload_count.
    rewrite Hs, countInWeek_snoc, decide_False by congruence. lia. }
  destruct (reserve_and_insert owner sample_name (today env) st)
    as [r|[e|[s st1]]] eqn:E; simpl; auto.
Qed.

(** ** Histories of submissions and settings changes *)

Section History.

Context (describe : bytes → string) (rest : Model) (data_path : string).

Let M : Model := spec_model describe rest.

Lemma add_sample_spec_store (env : Env) (req : Request) (st : Store) :
  (add_sample M data_path env req st).2
  = (submit describe data_path env (u_email (current_user req))
       (default "" (form req !! "name")) (upload req !! "file") st).2.
Proof.
  unfold add_sample. simpl. unfold add_new_sample_spec.
  by destruct (submit _ _ _ _ _ _ _) as [[s|r|f] st'].
Qed.

Lemma run_snoc (evs : list event) (e : event) (st0 : Store) :
  run M data_path (evs ++ [e]) st0
  = apply_event M data_path (run M data_path evs st0) e.
Proof. unfold run. by rewrite foldl_app. Qed.

Lemma apply_event_counts (e : event) (st : Store) :
  let st' := apply_event M data_path st e in
  (∀ W, countInWeek W (samples st') = countInWeek W (samples st))
  ∨ (∃ env req,
       e = EvAddSample env req
       ∧ countInWeek (bucketFor (today env)) (samples st')
         = countInWeek (bucketFor (today env)) (samples st) + 1
       ∧ countInWeek (bucketFor (today env)) (samples st')
         ≤ capacity (settings st)
       ∧ ∀ W, W ≠ bucketFor (today env) →
              countInWeek W (samples st') = countInWeek W (samples st)).
Proof.
  destruct e as [env req|s]; simpl; [|by left].
  rewrite add_sample_spec_store.
  destruct (submit_counts describe data_path env
              (u_email (current_user req)) (default "" (form req !! "name"))
              (upload req !! "file") st) as [_ [Hsame|Hnew]]; [by left|].
  right. by exists env, req.
Qed.

Lemma run_settings_seen (evs : list event) (st0 : Store) :
  settings (run M data_path evs st0) ∈ settings_seen evs st0.
Proof.
  induction evs as [|e evs IH] using rev_ind; [by left|].
  rewrite run_snoc. unfold settings_seen in *. rewrite omap_app.
  destruct e as [env req|s]; simpl.
  - rewrite add_sample_spec_store.
    destruct (submit_counts describe data_path env
                (u_email (current_user req)) (default "" (form req !! "name"))
                (upload req !! "file") (run M data_path evs st0)) as [-> _].
    by rewrite app_nil_r.
  - rewrite app_comm_cons. apply elem_of_app. right. by left.
Qed.

Lemma settings_seen_prefix (evs1 evs2 : list event) (st0 : Store)
    (s : Settings) :
  s ∈ settings_seen evs1 st0 → s ∈ settings_seen (evs1 ++ evs2) st0.
Proof.
  unfold settings_seen. rewrite omap_app, app_comm_cons.
  intros H. apply elem_of_app. by left.
Qed.

(** The count of a week, at the end of a history that starts without
    samples, is zero or the count reached by some submission of the
    history into that week, which was within the capacity then in force. *)
Lemma history_count (evs : list event) (st0 : Store) (W : WeekBucket) :
  samples st0 = [] →
  countInWeek W (samples (run M data_path evs st0)) = 0
  ∨ ∃ evs1 env req evs2,
      evs = evs1 ++ EvAddSample env req :: evs2
      ∧ bucketFor (today env) = W
      ∧ countInWeek W (samples (run M data_path evs st0))
        = countInWeek W
            (samples (run M data_path (evs1 ++ [EvAddSample env req]) st0))
      ∧ countInWeek W (samples (run M data_path evs st0))
        ≤ capacity (settings (run M data_path evs1 st0)).
Proof.
  intros H0. induction evs as [|e evs IH] using rev_ind.
  - left. unfold run. simpl. by rewrite H0.
  - rewrite run_snoc.
    destruct (apply_event_counts e (run M data_path evs st0))
      as [Hsame|(env & req & -> & Hinc & Hcap & Hother)].
    + rewrite Hsame.
      destruct IH as [Hz|(evs1 & env & req & evs2 & -> & HW & Heq & Hle)];
        [by left|].
      right. exists evs1, env, req, (evs2 ++ [e]).
      by rewrite <- app_assoc.
    + destruct (decide (W = bucketFor (today env))) as [->|HW].
      * right. exists evs, env, req, []. rewrite run_snoc. by repeat split.
      * rewrite (Hother W HW).
        destruct IH as [Hz|(evs1 & env' & req' & evs2 & -> & HW' & Heq & Hle)];
          [by left|].
        right. exists evs1, env', req', (evs2 ++ [EvAddSample env req]).
        by rewrite <- app_assoc.
Qed.

End History.

(** C1 (against the orchestrator modelled from the specification). A
    submission that finds the count of its week at or above the capacity of
    the settings in force is rejected with [CapacityExceeded], the boundary
    answers "No more samples available this week.", and the store is
    unchanged.  Any other submission leaves every count as it was or adds
    one sample to its own week, the new count being within the capacity
    read at that instant.  Hence, along any history of submissions and
    settings changes that starts without samples, the count of a week is
    zero or is the count reached at a reservation into that week, where it
    did not exceed the capacity then in force; if no settings in force
    along the history allow more than [C] samples, no week ever holds more
    than [C]. *)
Theorem weekly_capacity_never_exceeded (describe : bytes → string)
    (rest : Model) (data_path : string) :
  let M := spec_model describe rest in
  (∀ env req st,
     capacity (settings st)
     ≤ countInWeek (bucketFor (today env)) (samples st) →
     add_sample M data_path env req st = (no_more_samples, st)
     ∧ (u_email (current_user req) ≠ "" →
        default "" (form req !! "name") ≠ "" →
        submit describe data_path env (u_email (current_user req))
          (default "" (form req !! "name")) (upload req !! "file") st
        = (Rejected CapacityExceeded, st)))
  ∧ (∀ env req st,
       let st' := (add_sample M data_path env req st).2 in
       (∀ W, countInWeek W (samples st') = countInWeek W (samples st))
       ∨ (countInWeek (bucketFor (today env)) (samples st')
          = countInWeek (bucketFor (today env)) (samples st) + 1
          ∧ countInWeek (bucketFor (today env)) (samples st')
            ≤ capacity (settings st)
          ∧ ∀ W, W ≠ bucketFor (today env) →
                 countInWeek W (samples st') = countInWeek W (samples st)))
  ∧ (∀ evs st0 W,
       samples st0 = [] →
       countInWeek W (samples (run M data_path evs st0)) = 0
       ∨ ∃ evs1 env req evs2,
           evs = evs1 ++ EvAddSample env req :: evs2
           ∧ bucketFor (today env) = W
           ∧ countInWeek W (samples (run M data_path evs st0))
             = countInWeek W
                 (samples
                    (run M data_path (evs1 ++ [EvAddSample env req]) st0))
           ∧ countInWeek W (samples (run M data_path evs st0))
             ≤ capacity (settings (run M data_path evs1 st0)))
  ∧ (∀ evs st0 W C,
       samples st0 = [] → 0 ≤ C →
       (∀ s, s ∈ settings_seen evs st0 → capacity s ≤ C) →
       countInWeek W (samples (run M data_path evs st0)) ≤ C).
Proof.
  cbv zeta. split; [|split; [|split]].
  - intros env req st Hfull.
    assert (reserve_and_insert (u_email (current_user req))
              (default "" (form req !! "name")) (today env) st
            = inl CapacityExceeded) as Hres.
    { unfold reserve_and_insert. by rewrite tryReserveSlot_full. }
    split.
    + unfold add_sample. simpl. unfold add_new_sample_spec, submit.
      rewrite Hres. by destruct (bool_decide _ || bool_decide _).
    + intros Ho Hn. unfold submit.
      rewrite !bool_decide_eq_false_2 by done. simpl. by rewrite Hres.
  - intros env req st. rewrite add_sample_spec_store.
    apply submit_counts.
  - intros evs st0 W H0. by apply history_count.
  - intros evs st0 W C H0 HC Hseen.
    destruct (history_count describe rest data_path evs st0 W H0)
      as [->|(evs1 & env & req & evs2 & -> & _ & _ & Hle)]; [done|].
    etrans; [exact Hle|]. apply Hseen.
    apply settings_seen_prefix, run_settings_seen.
Qed.

Lemma weekly_capacity_never_exceeded_witness :
  add_sample M0 "/data" monday (post_sample alice "z" None) full_week
  = (no_more_samples, full_week)
  ∧ submit (λ _, "reference"%string) "/data" monday "a@x.org" "z" None
      full_week
    = (Rejected CapacityExceeded, full_week)
  ∧ countInWeek (2024, 5)
      (samples (run M0 "/data" history (empty_store settings_1x2))) ≤ 3.
Proof.
  destruct (weekly_capacity_never_exceeded (λ _, "reference"%string) inert
              "/data") as (Hfull & _ & _ & Hbound).
  destruct (Hfull monday (post_sample alice "z" None) full_week)
    as [Hresp Hout]; [vm_compute; discriminate|].
  split; [exact Hresp|]. split.
  - apply Hout; discriminate.
  - apply Hbound; [reflexivity|lia|].
    intros s Hs.
    apply elem_of_cons in Hs as [->|Hs]; [vm_compute; discriminate|].
    apply elem_of_cons in Hs as [->|Hs]; [vm_compute; discriminate|].
    apply elem_of_cons in Hs as [->|Hs]; [vm_compute; discriminate|].
    by apply elem_of_nil in Hs.
Defined.

(** Scenario B: the capacity is raised from 2 to 3 after two samples; a
    third submission is taken with ordinal 3, and lowering the capacity
    afterwards removes nothing. *)
Example scenario_B :
  (submit (λ _, "reference"%string) "/data" monday "a@x.org" "z" None
     (with_settings settings_1x3 full_week)).1
  = Accepted (mk_Sample "2024-05-003" "a@x.org" "z" (mk_date 2024 1 29) 3 None)
  ∧ countInWeek (2024, 5) (samples lowered) = 3
  ∧ countInWeek (2024, 5)
      (samples (run M0 "/data" history (empty_store settings_1x2))) = 3.
Proof. vm_compute. by repeat split. Qed.

(** Scenario C: the upload cannot be written after the metadata commit; the
    submission fails with [StorageFailure] and the slot stays consumed. *)
Example scenario_C :
  let '(o, st) :=
    submit (λ _, "reference"%string) "/data" monday_disk_full "a@x.org" "x"
      (Some [Byte.x3e]) (empty_store settings_1x2) in
  o = Failed StorageFailure
  ∧ remaining M0 monday st = ok (JObject [("remaining", VInt 1)]).
Proof. vm_compute. by split. Qed.

(** ** Keys

    [generate] is collision-free in the ordinal: two ordinals of one week
    never get the same key. *)

Lemma pretty_N_go_head (x : N) (s : string) :
  (0 < x)%N → ∃ c r, pretty_N_go x s = String c r ∧ c ≠ "0"%char.
Proof.
  revert s. induction (N.lt_wf_0 x) as [x _ IH]. intros s Hx.
  rewrite pretty_N_go_step by done.
  destruct (decide (x `div` 10 = 0)%N) as [Hd|Hd].
  - rewrite Hd, pretty_N_go_0. eexists _, _. split; [done|].
    apply N.div_small_iff in Hd; [|done].
    rewrite N.mod_small by done.
    assert (x = 1 ∨ x = 2 ∨ x = 3 ∨ x = 4 ∨ x = 5 ∨ x = 6
            ∨ x = 7 ∨ x = 8 ∨ x = 9)%N as Hcases by lia.
    repeat (destruct Hcases as [->|Hcases]; [done|]). by subst x.
  - apply IH; [apply N.div_lt; lia|by apply N.neq_0_lt_0].
Qed.

Lemma pretty_canonical (n : Z) : 0 ≤ n → canonical (pretty n).
Proof.
  intros Hn. destruct n as [|p|p]; [by left| |lia].
  right. unfold pretty, pretty_Z, pretty, pretty_positive, pretty, pretty_N.
  rewrite decide_False by done. by apply pretty_N_go_head.
Qed.

Lemma zeros_0_app (s : string) : zeros 0 +:+ s = s.
Proof. reflexivity. Qed.

Lemma zeros_S_app (i : nat) (s : string) :
  zeros (S i) +:+ s = String "0" (zeros i +:+ s).
Proof. reflexivity. Qed.

Lemma zeros_app_empty (i : nat) (s : string) : zeros i +:+ s = "" → s = "".
Proof. destruct i; [by rewrite zeros_0_app|by rewrite zeros_S_app]. Qed.

Lemma canonical_not_empty : ¬ canonical "".
Proof. by intros [?|(c & r & ? & _)]. Qed.

Lemma canonical_leading_zero (r : string) :
  canonical (String "0" r) → r = "".
Proof. intros [[= ->]|(c & r' & [= <- <-] & Hc)]; done. Qed.

Lemma zeros_canonical_inj (i j : nat) (s t : string) :
  canonical s → canonical t → zeros i +:+ s = zeros j +:+ t → s = t.
Proof.
  intros Hs Ht. revert j.
  induction i as [|i IH]; intros [|j];
    rewrite ?zeros_0_app, ?zeros_S_app; intros E.
  - done.
  - subst s. apply canonical_leading_zero, zeros_app_empty in Hs. subst t.
    by destruct canonical_not_empty.
  - subst t. apply canonical_leading_zero, zeros_app_empty in Ht. subst s.
    by destruct canonical_not_empty.
  - injection E as E. by apply (IH j).
Qed.

Lemma zfill_inj (w : nat) (a b : Z) :
  0 ≤ a → 0 ≤ b → zfill w a = zfill w b → a = b.
Proof.
  intros Ha Hb E. apply (inj pretty).
  eapply zeros_canonical_inj; [by apply pretty_canonical..|exact E].
Qed.

Lemma generate_inj_ordinal (W : WeekBucket) (a b : Z) :
  0 ≤ a → 0 ≤ b → generate W a = generate W b → a = b.
Proof.
  intros Ha Hb E. unfold generate in E.
  do 4 apply (inj (String.app _)) in E.
  by apply (zfill_inj 3).
Qed.

(** ** A submission followed by a download

    For the orchestrator of the specification: once a submission with an
    upload is accepted, the flag of the sample and the file on disk agree,
    and the owner (or an administrator) who asks for the new key gets the
    uploaded bytes back. *)

Lemma filter_by_visible (req : Request) (st : Store) (s : Sample) :
  unique_keys st → s ∈ samples st → visible req s →
  filter_by req st = [s].
Proof.
  intros Hnd Hs Hv.
  assert (s ∈ filter_by req st) as Hin.
  { unfold filter_by. destruct Hv as [Hk Hown].
    destruct (u_is_admin (current_user req)); simpl;
      rewrite ?list_elem_of_filter; destruct Hown; try done; auto. }
  destruct (filter_by_unique req st Hnd) as [[Hf _]|(x & _ & _ & Hf)];
    rewrite Hf in Hin.
  - by apply elem_of_nil in Hin.
  - apply list_elem_of_singleton in Hin. by subst.
Qed.

Lemma insert_inr_new_key (s : Sample) (repo repo' : list Sample) :
  insert s repo = inr repo' →
  ∀ x, x ∈ repo → primary_key x ≠ primary_key s.
Proof.
  unfold insert.
  destruct (existsb (λ x, bool_decide (primary_key x = primary_key s)) repo)
    eqn:E; [done|].
  intros _ x Hx Hk.
  assert (existsb (λ x, bool_decide (primary_key x = primary_key s)) repo
          = true) as E'; [|congruence].
  apply existsb_exists. exists x. split; [by apply list_elem_of_In|].
  by apply bool_decide_eq_true_2.
Qed.

Lemma set_description_keys (key d : string) (repo : list Sample) :
  map primary_key (set_description key d repo) = map primary_key repo.
Proof.
  induction repo as [|x repo IH]; [done|]. simpl. rewrite IH. f_equal.
  by destruct (bool_decide _).
Qed.

Lemma submit_then_fetch (describe : bytes → string) (data_path : string)
    (env : Env) (owner sample_name : string) (b : bytes) (st st' : Store)
    (s : Sample) :
  unique_keys st →
  submit describe data_path env owner sample_name (Some b) st
  = (Accepted s, st') →
  unique_keys st'
  ∧ s ∈ samples st'
  ∧ email s = owner
  ∧ reference_sequence_description s = Some (describe b)
  ∧ files st' !! filename data_path s = Some b
  ∧ ∀ req,
      json req !! "primary_key" = Some (primary_key s) →
      u_is_admin (current_user req) = true
      ∨ u_email (current_user req) = owner →
      reference_sequence data_path req st'
      = ok (Attachment (filename data_path s) b).
Proof.
  intros Hnd Hsub.
  assert (∃ s0 st1,
            reserve_and_insert owner sample_name (today env) st
            = inr (inr (s0, st1))
            ∧ store_upload describe data_path env s0 (Some b) st1
              = (Accepted s, st')) as (s0 & st1 & Hres & Hup).
  { unfold submit in Hsub.
    destruct (bool_decide _ || bool_decide _); [done|].
    destruct (reserve_and_insert owner sample_name (today env) st)
      as [r|[e|[s0 st1]]]; try done. by exists s0, st1. }
  assert (email s0 = owner ∧ reference_sequence_description s0 = None
          ∧ ∀ x, x ∈ samples st → primary_key x ≠ primary_key s0)
    as (Hown & Hnone & Hnew).
  { unfold reserve_and_insert in Hres.
    destruct (tryReserveSlot _ _ _) as [k|]; [|done].
    destruct (insert _ _) as [e|repo'] eqn:Ei; [done|].
    injection Hres as <- <-. split; [done|]. split; [done|].
    by apply (insert_inr_new_key _ _ _ Ei). }
  apply reserve_and_insert_inr in Hres as (Hs1 & _ & Hf1 & _).
  unfold store_upload, store in Hup.
  destruct (negb (disk_writable env)); [done|].
  destruct (files st1 !! path_of data_path s0) eqn:Efree; [done|].
  injection Hup as <- <-. simpl.
  set (s := mk_Sample (primary_key s0) (email s0) (name s0) (date_ s0)
              (ordinal_in_week s0) (Some (describe b))).
  assert (filename data_path s = path_of data_path s0) as Hpath
    by (by rewrite filename_path_of).
  assert (unique_keys
            (mk_Store (users st1)
               (set_description (primary_key s0) (describe b) (samples st1))
               (settings st1)
               (<[path_of data_path s0 := b]> (files st1)))) as Hnd'.
  { unfold unique_keys. simpl. rewrite set_description_keys, Hs1, map_app.
    apply NoDup_app. split; [done|]. split; [|apply NoDup_singleton].
    intros k (x & -> & Hx)%list_elem_of_fmap Hk%list_elem_of_singleton.
    by apply (Hnew x). }
  assert (s ∈ set_description (primary_key s0) (describe b) (samples st1))
    as Hin.
  { rewrite Hs1. unfold set_description. rewrite map_app.
    apply elem_of_app. right. simpl.
    rewrite bool_decide_eq_true_2 by done. by left. }
  split; [done|]. split; [done|]. split; [done|]. split; [done|].
  split; [by rewrite Hpath, lookup_insert_eq|].
  intros req Hk Hcaller.
  apply reference_sequence_fetch.
  - apply filter_by_visible; [done|done|]. split; [done|].
    destruct Hcaller as [?|<-]; [by left|by right].
  - by eexists.
  - simpl. by rewrite Hpath, lookup_insert_eq.
Qed.

Example submit_then_fetch_example :
  let '(o, st') :=
    submit (λ _, "reference"%string) "/data" monday "a@x.org" "x"
      (Some [Byte.x3e; Byte.x78]) (empty_store settings_1x2) in
  o = Accepted sample_a
  ∧ reference_sequence "/data" (post_key alice "2024-05-001") st'
    = ok (Attachment fasta_a [Byte.x3e; Byte.x78])
  ∧ reference_sequence "/data" (post_key bob "2024-05-001") st'
    = err401 (JText "Sample not found").
Proof. vm_compute. by repeat split. Qed.

(** * Concurrent submissions under the week lock *)

Import Concurrent.

(** ** Lists of threads updated in place *)

Lemma omap_insert_same {A B : Type} (f : A → option B) (l : list A)
    (i : nat) (x y : A) :
  l !! i = Some x → f y = f x → omap f (<[i := y]> l) = omap f l.
Proof.
  revert i. induction l as [|a l IH]; intros [|i] Hi Hf; try done; csimpl in *.
  - injection Hi as ->. by rewrite Hf.
  - by rewrite (IH i).
Qed.

Lemma omap_insert_new {A B : Type} (f : A → option B) (l : list A)
    (i : nat) (x y : A) (b : B) :
  l !! i = Some x → f x = None → f y = Some b →
  omap f (<[i := y]> l) ≡ₚ b :: omap f l.
Proof.
  revert i. induction l as [|a l IH]; intros [|i] Hi Hx Hy; try done;
    csimpl in *.
  - injection Hi as ->. by rewrite Hx, Hy.
  - specialize (IH i Hi Hx Hy). destruct (f a) as [b'|]; [|done].
    rewrite IH. apply perm_swap.
Qed.

Lemma measure_insert (l : list thread) (i : nat) (t t' : thread) :
  l !! i = Some t →
  (sum_list (map (λ t, rank (t_pc t)) (<[i := t']> l)) + rank (t_pc t)
   = sum_list (map (λ t, rank (t_pc t)) l) + rank (t_pc t'))%nat.
Proof.
  revert i. induction l as [|a l IH]; intros [|i] Hi; try done; csimpl in *.
  - injection Hi as ->. lia.
  - specialize (IH i Hi). lia.
Qed.

(** ** Counting by ordinals *)

Lemma countInWeek_ordinals (W : WeekBucket) (repo : list Sample) :
  countInWeek W repo = Z.of_nat (length (ordinals_of W repo)).
Proof. unfold countInWeek, ordinals_of. by rewrite length_map. Qed.

Lemma ordinals_of_snoc (W : WeekBucket) (repo : list Sample) (s : Sample) :
  weekBucket s = W →
  ordinals_of W (repo ++ [s]) = ordinals_of W repo ++ [ordinal_in_week s].
Proof.
  intros HW. unfold ordinals_of.
  by rewrite filter_app, filter_cons, decide_True, filter_nil, map_app.
Qed.

Lemma ordinals_of_elem (W : WeekBucket) (repo : list Sample) (k : Z) :
  k ∈ ordinals_of W repo ↔
  ∃ s, s ∈ repo ∧ weekBucket s = W ∧ ordinal_in_week s = k.
Proof.
  unfold ordinals_of. rewrite list_elem_of_fmap. split.
  - intros (s & -> & [HW Hs]%list_elem_of_filter). by exists s.
  - intros (s & Hs & HW & <-). exists s. split; [done|].
    by apply list_elem_of_filter.
Qed.

(** ** Insertion under the invariant never conflicts *)

Lemma existsb_false {A : Type} (f : A → bool) (l : list A) :
  (∀ x, x ∈ l → f x = false) → existsb f l = false.
Proof.
  intros H. induction l as [|a l IH]; [done|]. simpl.
  rewrite (H a) by (by left). apply IH. intros x Hx. apply H. by right.
Qed.

Lemma insert_fresh (W : WeekBucket) (C : Z) (c : config)
    (owner sample_name : string) (now : date) :
  inv W C c → bucketFor now = W →
  let k := countInWeek W (samples (shared c)) + 1 in
  insert (mk_Sample (generate W k) owner sample_name now k None)
    (samples (shared c))
  = inr (samples (shared c)
         ++ [mk_Sample (generate W k) owner sample_name now k None]).
Proof.
  intros Hinv HW k. unfold insert. simpl.
  pose proof (countInWeek_nonneg W (samples (shared c))) as Hn.
  rewrite existsb_false; [rewrite existsb_false; [done|]|].
  - intros x Hx. apply andb_false_iff.
    destruct (decide (weekBucket x = W)) as [Hb|Hb].
    + right. apply bool_decide_eq_false_2.
      destruct (inv_keys _ _ _ Hinv x Hx Hb) as [_ Hk]. unfold k. lia.
    + left. apply bool_decide_eq_false_2.
      unfold weekBucket at 2. simpl. by rewrite HW.
  - intros x Hx. apply bool_decide_eq_false_2.
    destruct (decide (weekBucket x = W)) as [Hb|Hb].
    + destruct (inv_keys _ _ _ Hinv x Hx Hb) as [-> Hk].
      intros E. apply generate_inj_ordinal in E; unfold k in *; lia.
    + by apply (inv_foreign _ _ _ Hinv).
Qed.

(** ** The invariant is preserved by every action *)

Section Exclusion.

Context (describe : bytes → string) (dataRoot : string).
Context (W : WeekBucket) (C : Z).

(** An action that leaves the shared store alone. *)
Lemma inv_control_move (c : config) (i : nat) (t : thread) (p : pc)
    (lk : gmap WeekBucket nat) :
  inv W C c → threads c !! i = Some t →
  slot (goto t p) = slot t →
  pc_ok W C (shared c) p →
  (holds p = true ↔ lk !! W = Some i) →
  (∀ j, j ≠ i → lk !! W = Some j ↔ locks c !! W = Some j) →
  inv W C (mk_config (shared c) lk (<[i := goto t p]> (threads c))).
Proof.
  intros Hinv Hi Hslot Hpc Hmine Hothers.
  pose proof (lookup_lt_Some _ _ _ Hi) as Hlt.
  pose proof (inv_threads _ _ _ Hinv i t Hi) as Ht.
  split; simpl; try apply Hinv.
  - intros j tj Hj. destruct (decide (j = i)) as [->|Hne].
    + rewrite list_lookup_insert_eq in Hj by done. injection Hj as <-.
      split; simpl; try apply Ht; done.
    + rewrite list_lookup_insert_ne in Hj by done.
      pose proof (inv_threads _ _ _ Hinv j tj Hj) as Htj.
      split; simpl; try apply Htj.
      rewrite (Hothers j Hne). apply Htj.
  - intros j Hj. rewrite length_insert.
    destruct (decide (j = i)) as [->|Hne]; [done|].
    apply (inv_holder _ _ _ Hinv). by apply Hothers.
  - rewrite (omap_insert_same slot _ i t) by done. apply Hinv.
Qed.

(** The insertion, by the thread that reserved the slot. *)
Lemma inv_commit (c : config) (i : nat) (t : thread) (r : bool) (k : Z) :
  inv W C c → threads c !! i = Some t → t_pc t = Reserved r k →
  let s := mk_Sample (generate W k) (t_owner t) (t_name t)
             (today (t_env t)) k None in
  inv W C
    (mk_config (with_samples (shared c) (samples (shared c) ++ [s]))
       (locks c) (<[i := goto t (Committed s)]> (threads c))).
Proof.
  intros Hinv Hi Hpc s.
  pose proof (lookup_lt_Some _ _ _ Hi) as Hlt.
  pose proof (inv_threads _ _ _ Hinv i t Hi) as Ht.
  pose proof (ok_pc _ _ _ _ _ Ht) as Hk. rewrite Hpc in Hk. simpl in Hk.
  destruct Hk as (-> & Hk & HkC).
  pose proof (countInWeek_nonneg W (samples (shared c))) as Hn.
  assert (weekBucket s = W) as HsW by apply Ht.
  assert (locks c !! W = Some i) as Hlock.
  { apply Ht. by rewrite Hpc. }
  assert (countInWeek W (samples (shared c) ++ [s]) = k) as Hcount.
  { rewrite countInWeek_snoc, decide_True by done. lia. }
  split; simpl.
  - intros j tj Hj. destruct (decide (j = i)) as [->|Hne].
    + rewrite list_lookup_insert_eq in Hj by done. injection Hj as <-.
      split; simpl; try apply Ht; done.
    + rewrite list_lookup_insert_ne in Hj by done.
      pose proof (inv_threads _ _ _ Hinv j tj Hj) as Htj.
      assert (holds (t_pc tj) = false) as Hfree.
      { destruct (holds (t_pc tj)) eqn:E; [|done].
        apply Htj in E. congruence. }
      split; simpl; try apply Htj.
      pose proof (ok_pc _ _ _ _ _ Htj) as Hpcj.
      destruct (t_pc tj) as [| | | | | |[|[]|]]; try done. simpl in *. lia.
  - intros j Hj. rewrite length_insert. by apply (inv_holder _ _ _ Hinv).
  - apply Hinv.
  - rewrite Hcount. lia.
  - intros x [Hx|Hx%list_elem_of_singleton]%elem_of_app HxW.
    + destruct (inv_keys _ _ _ Hinv x Hx HxW) as [Hkey Hord].
      split; [done|]. rewrite Hcount. lia.
    + subst x. simpl. split; [done|]. rewrite Hcount. lia.
  - intros x k' [Hx|Hx%list_elem_of_singleton]%elem_of_app HxW.
    + by apply (inv_foreign _ _ _ Hinv).
    + by subst x.
  - rewrite (omap_insert_new slot _ i t _ k); [|done|by unfold slot; rewrite Hpc|done].
    rewrite ordinals_of_snoc by done. simpl.
    rewrite (inv_slots _ _ _ Hinv). apply Permutation_cons_append.
  - rewrite ordinals_of_snoc by done. simpl.
    apply NoDup_app. split; [apply Hinv|]. split; [|apply NoDup_singleton].
    intros o (x & Hx & HxW & <-)%ordinals_of_elem Ho%list_elem_of_singleton.
    destruct (inv_keys _ _ _ Hinv x Hx HxW) as [_ Hord]. lia.
Qed.

Lemma store_upload_no_file (env : Env) (s : Sample) (st : Store) :
  store_upload describe dataRoot env s None st = (Accepted s, st).
Proof. done. Qed.

Lemma inv_step (c c' : config) (i : nat) :
  inv W C c → thread_step describe dataRoot i c = Some c' → inv W C c'.
Proof.
  intros Hinv. unfold thread_step.
  destruct (threads c !! i) as [t|] eqn:Hi; [|done].
  pose proof (inv_threads _ _ _ Hinv i t Hi) as Ht.
  pose proof (ok_lock _ _ _ _ _ Ht) as Hlock.
  pose proof (ok_pc _ _ _ _ _ Ht) as Hpc.
  rewrite (ok_bucket _ _ _ _ _ Ht).
  assert (∀ j, j ≠ i → locks c !! W = Some i →
               delete W (locks c) !! W = Some j ↔ locks c !! W = Some j)
    as Hrelease.
  { intros j Hne Hheld. rewrite lookup_delete_eq, Hheld.
    split; [done|congruence]. }
  assert (holds (t_pc t) = false → ∀ lk, lk = locks c →
          false = true ↔ lk !! W = Some i) as Hidle.
  { intros Hf lk ->. rewrite <- Hlock, Hf. done. }
  destruct (t_pc t) as [| |r|r k|s|s|o] eqn:Epc; simpl in Hlock, Hpc.
  - rewrite !bool_decide_eq_false_2 by apply Ht. simpl. intros [= <-].
    apply inv_control_move;
      [done|done|by unfold slot; simpl; rewrite Epc|done
      |by apply Hidle|done].
  - destruct (locks c !! W) as [h|] eqn:Eh; [done|]. intros [= <-].
    apply inv_control_move;
      [done|done|by unfold slot; simpl; rewrite Epc|done| |].
    + simpl. by rewrite lookup_insert_eq.
    + intros j Hne. rewrite lookup_insert_eq, Eh.
      split; [congruence|done].
  - subst r.
    destruct (tryReserveSlot W (settings (shared c)) (samples (shared c)))
      as [k|] eqn:Ek; intros [= <-].
    + apply tryReserveSlot_Some in Ek as [-> HkC].
      unfold capacity in HkC. fold (capacity (settings (shared c))) in HkC.
      rewrite (inv_settings _ _ _ Hinv) in HkC.
      apply inv_control_move;
        [done|done|by unfold slot; simpl; rewrite Epc|done|done|done].
    + apply inv_control_move;
        [done|done|by unfold slot; simpl; rewrite Epc| | |].
      * simpl. unfold tryReserveSlot in Ek.
        rewrite (inv_settings _ _ _ Hinv) in Ek.
        destruct (Z.leb_spec C (countInWeek W (samples (shared c))));
          [|done].
        pose proof (inv_count _ _ _ Hinv). lia.
      * simpl. rewrite lookup_delete_eq. split; done.
      * intros j Hne. apply Hrelease; [done|]. by apply Hlock.
  - destruct Hpc as (-> & Hk & HkC). subst k.
    rewrite (insert_fresh W C c) by (done || apply Ht).
    intros [= <-].
    apply (inv_commit c i t false
             (countInWeek W (samples (shared c)) + 1)); done.
  - intros [= <-].
    apply inv_control_move;
      [done|done|by unfold slot; simpl; rewrite Epc|done| |].
    + simpl. rewrite lookup_delete_eq. split; done.
    + intros j Hne. apply Hrelease; [done|]. by apply Hlock.
  - rewrite (ok_file _ _ _ _ _ Ht), store_upload_no_file. intros [= <-].
    apply (inv_control_move c i t (Done (Accepted s)) (locks c));
      [done|done|by unfold slot; simpl; rewrite Epc|done
      |by apply Hidle|done].
  - done.
Qed.

End Exclusion.

(** ** Arrival, reachable configurations, and the final tally *)

Section Tally.

Context (describe : bytes → string) (dataRoot : string).
Context (W : WeekBucket) (C : Z).

Lemma inv_arrive (st0 : Store) (calls : list (string * string * Env)) :
  capacity (settings st0) = C → 0 ≤ C →
  countInWeek W (samples st0) = 0 →
  (∀ s k, s ∈ samples st0 → primary_key s ≠ generate W k) →
  (∀ o n e, (o, n, e) ∈ calls → o ≠ "" ∧ n ≠ "" ∧ bucketFor (today e) = W) →
  inv W C (arrive st0 calls).
Proof.
  intros Hcap HC H0 Hfresh Hcalls.
  assert (ordinals_of W (samples st0) = []) as Hnil.
  { apply length_zero_iff_nil. rewrite countInWeek_ordinals in H0. lia. }
  assert (∀ l : list (string * string * Env),
            omap slot (map (λ '(o, n, e), mk_thread o n None e Received) l)
            = []) as Hslots.
  { induction l as [|[[o n] e] l IH]; [done|]. exact IH. }
  split; simpl.
  - intros i t Hi.
    assert (t ∈ map (λ '(o, n, e), mk_thread o n None e Received) calls)
      as Hin by (apply list_elem_of_lookup; by exists i).
    apply list_elem_of_fmap in Hin as ([[o n] e] & -> & Hc).
    destruct (Hcalls o n e Hc) as (Ho & Hn & HW).
    split; simpl; try done.
  - intros i Hi. by rewrite lookup_empty in Hi.
  - done.
  - lia.
  - intros s Hs HsW. exfalso.
    assert (ordinal_in_week s ∈ ordinals_of W (samples st0)) as Hin
      by (apply ordinals_of_elem; by exists s).
    rewrite Hnil in Hin. by apply elem_of_nil in Hin.
  - intros s k Hs _. by apply Hfresh.
  - by rewrite Hslots, Hnil.
  - rewrite Hnil. constructor.
Qed.

Lemma inv_rtc (c c' : config) :
  inv W C c → rtc (step describe dataRoot) c c' → inv W C c'.
Proof.
  intros Hinv Hsteps. induction Hsteps as [|c c1 c2 [i Hi] _ IH]; [done|].
  apply IH. by apply (inv_step describe dataRoot W C c c1 i).
Qed.

(** At most one thread is between taking the lock and giving it back. *)
Lemma inv_mutual_exclusion (c : config) (i j : nat) (ti tj : thread) :
  inv W C c → threads c !! i = Some ti → threads c !! j = Some tj →
  holds (t_pc ti) = true → holds (t_pc tj) = true → i = j.
Proof.
  intros Hinv Hi Hj Hhi Hhj.
  apply (inv_threads _ _ _ Hinv i ti Hi) in Hhi.
  apply (inv_threads _ _ _ Hinv j tj Hj) in Hhj.
  congruence.
Qed.

Lemma tally_threads (st : Store) (l : list thread) :
  Forall (λ t, finished t = true) l →
  Forall (λ t, pc_ok W C st (t_pc t)) l →
  let outs :=
    omap (λ t, match t_pc t with Done o => Some o | _ => None end) l in
  length outs = length l
  ∧ omap (λ o, match o with
               | Accepted s => Some (ordinal_in_week s)
               | _ => None
               end) outs = omap slot l
  ∧ tally is_accepted outs = length (omap slot l)
  ∧ (tally is_accepted outs + tally is_capacity_exceeded outs = length l)%nat
  ∧ ((length (omap slot l) < length l)%nat →
     countInWeek W (samples st) = C).
Proof.
  unfold tally.
  induction l as [|t l IH]; intros Hfin Hok; [simpl; repeat split; lia|].
  apply Forall_cons in Hfin as [Ht Hfin]. apply Forall_cons in Hok as [Hp Hok].
  destruct (IH Hfin Hok) as (IH1 & IH2 & IH3 & IH4 & IH5). clear IH.
  unfold finished in Ht.
  assert (omap slot (t :: l)
          = match slot t with
            | Some k => k :: omap slot l
            | None => omap slot l
            end) as -> by done.
  destruct (t_pc t) as [| | | | | |[s|[]|f]] eqn:Epc; try done.
  - assert (slot t = Some (ordinal_in_week s)) as ->
      by (unfold slot; by rewrite Epc).
    csimpl. rewrite Epc. simpl.
    split; [lia|]. split; [f_equal; exact IH2|].
    split; [lia|]. split; [lia|].
    intros Hlt. apply IH5. lia.
  - assert (slot t = None) as -> by (unfold slot; by rewrite Epc).
    csimpl. rewrite Epc. simpl.
    split; [lia|]. split; [exact IH2|]. split; [lia|]. split; [lia|done].
Qed.

Lemma final_tally (c : config) :
  inv W C c → final c → C < Z.of_nat (length (threads c)) →
  length (outcomes c) = length (threads c)
  ∧ Z.of_nat (tally is_accepted (outcomes c)) = C
  ∧ Z.of_nat (tally is_capacity_exceeded (outcomes c))
    = Z.of_nat (length (threads c)) - C
  ∧ NoDup (accepted_ordinals c)
  ∧ accepted_ordinals c ≡ₚ ordinals_of W (samples (shared c))
  ∧ countInWeek W (samples (shared c)) = C.
Proof.
  intros Hinv Hfin HN.
  assert (Forall (λ t, pc_ok W C (shared c) (t_pc t)) (threads c)) as Hok.
  { apply Forall_lookup. intros i t Hi.
    apply (inv_threads _ _ _ Hinv i t Hi). }
  destruct (tally_threads (shared c) (threads c) Hfin Hok)
    as (H1 & H2 & H3 & H4 & H5).
  fold (outcomes c) in H1, H2, H3, H4. fold (accepted_ordinals c) in H2.
  pose proof (inv_slots _ _ _ Hinv) as Hperm.
  pose proof (inv_count _ _ _ Hinv) as Hle.
  rewrite countInWeek_ordinals in Hle |- *.
  rewrite <- Hperm in Hle |- *.
  assert (Z.of_nat (length (omap slot (threads c))) = C) as HC.
  { destruct (decide (length (omap slot (threads c))
                      < length (threads c))%nat) as [Hlt|Hge].
    - apply H5 in Hlt. rewrite countInWeek_ordinals, <- Hperm in Hlt. done.
    - lia. }
  split; [done|]. split; [by rewrite H3|]. split; [lia|].
  rewrite H2. split; [|done].
  rewrite Hperm. apply Hinv.
Qed.

(** ** Every schedule runs to completion *)

Lemma thread_step_enabled (c : config) (i : nat) (t : thread) :
  threads c !! i = Some t → finished t = false →
  (t_pc t = Validated → locks c !! t_bucket t = None) →
  is_Some (thread_step describe dataRoot i c).
Proof.
  intros Hi Hfin Hfree. unfold thread_step, finished in *. rewrite Hi.
  destruct (t_pc t) as [| |r|r k|s|s|o]; try done.
  - by destruct (bool_decide _ || bool_decide _).
  - by rewrite Hfree.
  - by destruct (tryReserveSlot _ _ _).
  - by destruct (insert _ _); [destruct r|].
  - by destruct (store_upload _ _ _ _ _ _).
Qed.

Lemma progress (c : config) :
  inv W C c → ¬ final c → ∃ c', step describe dataRoot c c'.
Proof.
  intros Hinv Hnf.
  assert (∀ i t, threads c !! i = Some t → finished t = false →
                 (t_pc t = Validated → locks c !! W = None) →
                 ∃ c', step describe dataRoot c c') as Hgo.
  { intros i t Hi Hf Hfree.
    destruct (thread_step_enabled c i t Hi Hf) as [c' Hc'].
    - intros Hv. rewrite (ok_bucket _ _ _ _ _ (inv_threads _ _ _ Hinv i t Hi)).
      by apply Hfree.
    - exists c'. by exists i. }
  destruct (locks c !! W) as [h|] eqn:Eh.
  - destruct (lookup_lt_is_Some_2 (threads c) h) as [t Ht];
      [by apply (inv_holder _ _ _ Hinv)|].
    assert (holds (t_pc t) = true) as Hh
      by (by apply (inv_threads _ _ _ Hinv h t Ht)).
    apply (Hgo h t Ht).
    + unfold finished. by destruct (t_pc t).
    + intros Hv. by rewrite Hv in Hh.
  - apply not_Forall_Exists, Exists_exists in Hnf as (t & Hin & Hf);
      [|intros t; apply _].
    apply list_elem_of_lookup in Hin as [i Hi].
    apply (Hgo i t Hi); [|done].
    simpl in Hf. by destruct (finished t).
Qed.

Lemma step_measure (c c' : config) :
  step describe dataRoot c c' → (measure c' < measure c)%nat.
Proof.
  intros [i Hstep]. unfold thread_step in Hstep.
  destruct (threads c !! i) as [t|] eqn:Hi; [|done].
  assert (∀ p st lk,
            (rank p < rank (t_pc t))%nat →
            (measure (mk_config st lk (<[i := goto t p]> (threads c)))
             < measure c)%nat) as Hdown.
  { intros p st lk Hr. unfold measure. simpl.
    pose proof (measure_insert (threads c) i t (goto t p) Hi) as E.
    simpl in E. lia. }
  destruct (t_pc t) as [| |r|r k|s|s|o] eqn:Epc; try done.
  - destruct (bool_decide _ || bool_decide _);
      injection Hstep as <-; apply Hdown; simpl; lia.
  - destruct (locks c !! t_bucket t); [done|].
    injection Hstep as <-; apply Hdown; simpl; lia.
  - destruct (tryReserveSlot _ _ _);
      injection Hstep as <-; apply Hdown; destruct r; simpl; lia.
  - destruct (insert _ _); destruct r;
      injection Hstep as <-; apply Hdown; simpl; lia.
  - injection Hstep as <-; apply Hdown; simpl; lia.
  - destruct (store_upload _ _ _ _ _ _).
    injection Hstep as <-; apply Hdown; simpl; lia.
Qed.

Lemma nsteps_measure (n : nat) (c c' : config) :
  nsteps (step describe dataRoot) n c c' → (n + measure c' ≤ measure c)%nat.
Proof.
  induction 1 as [|n c c1 c2 Hstep _ IH]; [lia|].
  apply step_measure in Hstep. lia.
Qed.

Lemma completion (c : config) :
  inv W C c → ∃ c', rtc (step describe dataRoot) c c' ∧ final c'.
Proof.
  remember (measure c) as m eqn:Hm. revert c Hm.
  induction m as [m IH] using lt_wf_ind. intros c -> Hinv.
  destruct (decide (final c)) as [Hfin|Hnf]; [by exists c|].
  destruct (progress c Hinv Hnf) as [c1 Hstep].
  destruct (IH (measure c1) (step_measure c c1 Hstep) c1 eq_refl)
    as (c' & Hrtc & Hfin).
  - destruct Hstep as [i Hi].
    by apply (inv_step describe dataRoot W C c c1 i).
  - exists c'. split; [|done]. by eapply rtc_l.
Qed.

Lemma measure_arrive (st0 : Store) (calls : list (string * string * Env)) :
  measure (arrive st0 calls) = (8 * length calls)%nat.
Proof.
  unfold measure, arrive. simpl.
  induction calls as [|[[o n] e] l IH]; [done|]. simpl in *. lia.
Qed.

End Tally.

Lemma step_threads_length (describe : bytes → string) (dataRoot : string)
    (c c' : config) :
  rtc (step describe dataRoot) c c' →
  length (threads c') = length (threads c).
Proof.
  induction 1 as [|c c1 c2 [i Hi] _ IH]; [done|]. rewrite IH.
  unfold thread_step in Hi.
  destruct (threads c !! i) as [t|]; [|done].
  repeat match type of Hi with
         | context [match ?x with _ => _ end] => destruct x
         end;
    try done; injection Hi as <-; simpl; apply length_insert.
Qed.

Lemma run_schedule_rtc (describe : bytes → string) (dataRoot : string)
    (sched : list nat) (c : config) :
  rtc (step describe dataRoot) c (run_schedule describe dataRoot sched c).
Proof.
  revert c. induction sched as [|i sched IH]; intros c; [done|]. simpl.
  destruct (thread_step describe dataRoot i c) as [c1|] eqn:E; simpl.
  - eapply rtc_l; [by exists i|apply IH].
  - apply IH.
Qed.

(** C3 (against the lock discipline modelled from section 5 of the
    specification). [N] calls arrive together for a week [W] that holds no
    sample, under capacity [C] with [N > C]; each call has an owner and a
    name and no upload, and no stored sample of another week carries a key
    of [W].  Whatever the interleaving of the threads: the run
    can always be brought to completion and takes at most [8 N] actions;
    once all threads have finished, exactly [C] calls are [Accepted] and
    [N - C] are [Rejected CapacityExceeded], the accepted ordinals are
    pairwise different, and the week holds [C] samples.  Reservation and
    insertion are one atomic unit: at every instant at most one thread is
    between taking and releasing the lock, and a thread that has reserved
    ordinal [k] finds the count of the week still at [k - 1] when it
    inserts. *)
Theorem concurrent_submissions_fill_capacity (describe : bytes → string)
    (dataRoot : string) (st0 : Store) (calls : list (string * string * Env))
    (W : WeekBucket) (C : Z) :
  capacity (settings st0) = C → 0 ≤ C →
  countInWeek W (samples st0) = 0 →
  (∀ s k, s ∈ samples st0 → primary_key s ≠ generate W k) →
  (∀ o n e, (o, n, e) ∈ calls → o ≠ "" ∧ n ≠ "" ∧ bucketFor (today e) = W) →
  C < Z.of_nat (length calls) →
  let c0 := arrive st0 calls in
  let N := length calls in
  (∀ c, rtc (step describe dataRoot) c0 c →
        ∃ c', rtc (step describe dataRoot) c c' ∧ final c')
  ∧ (∀ n c, nsteps (step describe dataRoot) n c0 c → (n ≤ 8 * N)%nat)
  ∧ (∀ c, rtc (step describe dataRoot) c0 c → final c →
          length (outcomes c) = N
          ∧ Z.of_nat (tally is_accepted (outcomes c)) = C
          ∧ Z.of_nat (tally is_capacity_exceeded (outcomes c))
            = Z.of_nat N - C
          ∧ NoDup (accepted_ordinals c)
          ∧ countInWeek W (samples (shared c)) = C)
  ∧ (∀ c, rtc (step describe dataRoot) c0 c →
          (∀ i j ti tj,
             threads c !! i = Some ti → threads c !! j = Some tj →
             holds (t_pc ti) = true → holds (t_pc tj) = true → i = j)
          ∧ (∀ i t r k,
               threads c !! i = Some t → t_pc t = Reserved r k →
               k = countInWeek W (samples (shared c)) + 1 ∧ k ≤ C)).
Proof.
  intros Hcap HC H0 Hfresh Hcalls HN c0 N.
  assert (inv W C c0) as Hinv0 by (by apply inv_arrive).
  assert (length (threads c0) = N) as Hlen0
    by (unfold c0, arrive; simpl; apply length_map).
  split; [|split; [|split]].
  - intros c Hc. apply (completion describe dataRoot W C).
    by apply (inv_rtc describe dataRoot W C c0).
  - intros n c Hn. apply nsteps_measure in Hn.
    unfold c0 in Hn. rewrite measure_arrive in Hn. fold N in Hn. lia.
  - intros c Hc Hfin.
    pose proof (inv_rtc describe dataRoot W C c0 c Hinv0 Hc) as Hinv.
    pose proof (step_threads_length describe dataRoot c0 c Hc) as Hlen.
    rewrite Hlen0 in Hlen.
    destruct (final_tally W C c Hinv Hfin) as (H1 & H2 & H3 & H4 & _ & H6);
      [by rewrite Hlen|].
    rewrite Hlen in H1, H3. done.
  - intros c Hc.
    pose proof (inv_rtc describe dataRoot W C c0 c Hinv0 Hc) as Hinv.
    split.
    + intros i j ti tj. by apply (inv_mutual_exclusion W C c).
    + intros i t r k Hi Hpc.
      pose proof (ok_pc _ _ _ _ _ (inv_threads _ _ _ Hinv i t Hi)) as Hok.
      rewrite Hpc in Hok. simpl in Hok. tauto.
Qed.

Lemma concurrent_submissions_fill_capacity_witness :
  final raced
  ∧ outcomes raced
    = [Rejected CapacityExceeded;
       Accepted (mk_Sample "2024-05-001" "b@x.org" "y" (mk_date 2024 1 29) 1
                   None);
       Accepted (mk_Sample "2024-05-002" "c@x.org" "z" (mk_date 2024 1 29) 2
                   None)]
  ∧ length (outcomes raced) = length three_calls
  ∧ Z.of_nat (tally is_accepted (outcomes raced)) = 2
  ∧ Z.of_nat (tally is_capacity_exceeded (outcomes raced))
    = Z.of_nat (length three_calls) - 2
  ∧ NoDup (accepted_ordinals raced)
  ∧ countInWeek (2024, 5) (samples (shared raced)) = 2.
Proof.
  assert (final raced) as Hfin by (vm_compute; repeat constructor).
  split; [exact Hfin|]. split; [vm_compute; reflexivity|].
  destruct (concurrent_submissions_fill_capacity (λ _, "reference"%string)
              "/data" (empty_store settings_1x2) three_calls (2024, 5) 2)
    as (_ & _ & Htally & _).
  - reflexivity.
  - lia.
  - reflexivity.
  - intros s k Hs. by apply elem_of_nil in Hs.
  - intros o n e Hin.
    apply elem_of_cons in Hin as [[= -> -> ->]|Hin];
      [by vm_compute|].
    apply elem_of_cons in Hin as [[= -> -> ->]|Hin];
      [by vm_compute|].
    apply elem_of_cons in Hin as [[= -> -> ->]|Hin];
      [by vm_compute|].
    by apply elem_of_nil in Hin.
  - simpl. lia.
  - apply (Htally raced); [apply run_schedule_rtc|exact Hfin].
Defined.

(** * Further properties of the view functions *)

(** ** Selecting by a unique column *)

Lemma filter_unique_cases {A K : Type} (f : A → K) (P : A → Prop)
    `{∀ x, Decision (P x)} (l : list A) :
  NoDup (map f l) → (∀ x y, P x → P y → f x = f y) →
  (filter P l = [] ∧ ∀ x, x ∈ l → ¬ P x)
  ∨ (∃ x, filter P l = [x] ∧ x ∈ l ∧ P x ∧ ∀ y, y ∈ l → P y → y = x).
Proof.
  intros Hnd Hsame. induction l as [|a l IH].
  - left. split; [done|]. by intros x ?%elem_of_nil.
  - simpl in Hnd. apply NoDup_cons in Hnd as [Ha Hnd].
    rewrite filter_cons.
    destruct (IH Hnd) as [[Hnil Hnone]|(x & Hx & Hin & HP & Huniq)].
    + destruct (decide (P a)) as [Hp|Hp].
      * right. exists a. rewrite Hnil. split; [done|].
        split; [by left|]. split; [done|].
        intros y [->|Hy]%elem_of_cons Hy'; [done|]. by destruct (Hnone y).
      * left. split; [done|].
        intros y [->|Hy]%elem_of_cons; [done|]. by apply Hnone.
    + destruct (decide (P a)) as [Hp|Hp].
      * exfalso. apply Ha. rewrite (Hsame a x Hp HP).
        apply list_elem_of_fmap. by exists x.
      * right. exists x. split; [done|]. split; [by right|].
        split; [done|].
        intros y [->|Hy]%elem_of_cons Hy'; [done|]. by apply Huniq.
Qed.

(** ** [login] *)

Lemma login_select (j : gmap string string) (st : Store) :
  unique_emails st →
  (filter (λ u, j !! "email" = Some (u_email u)) (users st) = []
   ∧ ∀ u, u ∈ users st → j !! "email" ≠ Some (u_email u))
  ∨ (∃ x, filter (λ u, j !! "email" = Some (u_email u)) (users st) = [x]
          ∧ x ∈ users st ∧ j !! "email" = Some (u_email x)
          ∧ ∀ y, y ∈ users st → j !! "email" = Some (u_email y) → y = x).
Proof.
  intros Hnd.
  apply (filter_unique_cases u_email
           (λ u, j !! "email" = Some (u_email u))); [done|].
  intros x y Hx Hy. congruence.
Qed.

(** X1. With emails unique, [POST /login] is characterised outcome by
    outcome: it returns the user and a token exactly for a known, activated
    account whose password checks; "Unknown email address" exactly when no
    user has the email (also when the request carries none); "User account
    is not yet activated" exactly for a known account that is not
    activated, whatever the password; "Incorrect password" exactly for a
    known, activated account whose password does not check. *)
Theorem login_characterisation (M : Model) (j : gmap string string)
    (st : Store) :
  unique_emails st →
  (∀ u tok,
     login M j st
     = ok (JObject [("user", VUser u); ("access_token", VStr tok)])
     ↔ u ∈ users st ∧ j !! "email" = Some (u_email u)
       ∧ u_activated u = true
       ∧ check_password M u (j !! "password") = true
       ∧ tok = create_access_token M u)
  ∧ (login M j st = err401 (JText "Unknown email address")
     ↔ ∀ u, u ∈ users st → j !! "email" ≠ Some (u_email u))
  ∧ (login M j st = err401 (JText "User account is not yet activated")
     ↔ ∃ u, u ∈ users st ∧ j !! "email" = Some (u_email u)
            ∧ u_activated u = false)
  ∧ (login M j st = err401 (JText "Incorrect password")
     ↔ ∃ u, u ∈ users st ∧ j !! "email" = Some (u_email u)
            ∧ u_activated u = true
            ∧ check_password M u (j !! "password") = false).
Proof.
  intros Hnd. unfold login.
  destruct (login_select j st Hnd) as [[-> Hnone]|(x & -> & Hx & Hm & Huniq)];
    simpl.
  - split; [|split; [|split]].
    + intros u tok. split; [done|]. intros (Hu & Hk & _). by destruct (Hnone u).
    + done.
    + split; [done|]. intros (u & Hu & Hk & _). by destruct (Hnone u).
    + split; [done|]. intros (u & Hu & Hk & _). by destruct (Hnone u).
  - destruct (u_activated x) eqn:Ea; simpl;
      [destruct (check_password M x (j !! "password")) eqn:Ec; simpl|].
    + split; [|split; [|split]].
      * intros u tok. split.
        -- intros [= <- <-]. done.
        -- intros (Hu & Hk & _ & _ & ->). by rewrite (Huniq u Hu Hk).
      * split; [done|]. intros Hall. by destruct (Hall x Hx).
      * split; [done|]. intros (u & Hu & Hk & Hf).
        rewrite (Huniq u Hu Hk) in Hf. congruence.
      * split; [done|]. intros (u & Hu & Hk & _ & Hf).
        rewrite (Huniq u Hu Hk) in Hf. congruence.
    + split; [|split; [|split]].
      * intros u tok. split; [done|]. intros (Hu & Hk & _ & Hc & _).
        rewrite (Huniq u Hu Hk) in Hc. congruence.
      * split; [done|]. intros Hall. by destruct (Hall x Hx).
      * split; [done|]. intros (u & Hu & Hk & Hf).
        rewrite (Huniq u Hu Hk) in Hf. congruence.
      * split; [intros _; by exists x|done].
    + split; [|split; [|split]].
      * intros u tok. split; [done|]. intros (Hu & Hk & Ha & _).
        rewrite (Huniq u Hu Hk) in Ha. congruence.
      * split; [done|]. intros Hall. by destruct (Hall x Hx).
      * split; [intros _; by exists x|done].
      * split; [done|]. intros (u & Hu & Hk & Ha & _).
        rewrite (Huniq u Hu Hk) in Ha. congruence.
Qed.

Lemma login_characterisation_witness :
  unique_emails library
  ∧ login inert {[ "email" := "a@x.org"; "password" := "secret" ]} library
    = ok (JObject [("user", VUser alice); ("access_token", VStr "token")])
  ∧ login inert {[ "password" := "secret" ]} library
    = err401 (JText "Unknown email address").
Proof.
  assert (unique_emails library) as Hnd.
  { unfold unique_emails. apply (bool_decide_unpack _). vm_compute. exact I. }
  split; [exact Hnd|]. split.
  - destruct (login_characterisation inert
                {[ "email" := "a@x.org"; "password" := "secret" ]}
                library Hnd) as (Hok & _).
    apply Hok. split; [left|]. split; [reflexivity|].
    split; [reflexivity|]. split; reflexivity.
  - destruct (login_characterisation inert {[ "password" := "secret" ]}
                library Hnd) as (_ & Hunknown & _).
    apply Hunknown. intros u Hu. discriminate.
Defined.

(** ** The JWT loaders *)

Lemma user_lookup_found (header : gmap string string)
    (jwt_data : gmap string Z) (st : Store) (u : User) :
  unique_ids st → u ∈ users st →
  jwt_data !! "sub" = Some (user_identity_lookup u) →
  user_lookup_callback header jwt_data st = Loaded (Some u).
Proof.
  intros Hnd Hu Hsub. unfold user_lookup_callback. rewrite Hsub.
  unfold user_identity_lookup.
  destruct (filter_unique_cases u_id (λ x, u_id x = u_id u) (users st) Hnd)
    as [[_ Hnone]|(x & -> & _ & _ & Huniq)]; [congruence| |].
  - by destruct (Hnone u Hu).
  - simpl. by rewrite (Huniq u Hu eq_refl).
Qed.

(** X2. With user ids unique, the two loaders are inverse to each other on
    the user table: looking up the identity of a stored user loads that very
    user; an identity carried by no user loads [None]; a token without
    subject raises [KeyError]. *)
Theorem user_lookup_round_trip (header : gmap string string)
    (jwt_data : gmap string Z) (st : Store) :
  unique_ids st →
  (∀ u, u ∈ users st →
        jwt_data !! "sub" = Some (user_identity_lookup u) →
        user_lookup_callback header jwt_data st = Loaded (Some u))
  ∧ (∀ u, user_lookup_callback header jwt_data st = Loaded (Some u) →
          u ∈ users st ∧ jwt_data !! "sub" = Some (user_identity_lookup u))
  ∧ (∀ identity,
       jwt_data !! "sub" = Some identity →
       (∀ u, u ∈ users st → u_id u ≠ identity) →
       user_lookup_callback header jwt_data st = Loaded None)
  ∧ (jwt_data !! "sub" = None →
     user_lookup_callback header jwt_data st = KeyError).
Proof.
  intros Hnd. split; [|split; [|split]].
  - intros u Hu Hsub. by apply user_lookup_found.
  - intros u. unfold user_lookup_callback, user_identity_lookup.
    destruct (jwt_data !! "sub") as [identity|]; [|done].
    destruct (filter (λ x, u_id x = identity) (users st))
      as [|x [|??]] eqn:Ef; simpl; try done.
    intros [= ->].
    assert (u ∈ filter (λ x, u_id x = identity) (users st)) as Hin
      by (rewrite Ef; by left).
    apply list_elem_of_filter in Hin as [<- Hu]. done.
  - intros identity Hsub Hnone. unfold user_lookup_callback. rewrite Hsub.
    assert (filter (λ x, u_id x = identity) (users st) = []) as ->; [|done].
    induction (users st) as [|a l IH]; [done|].
    rewrite filter_cons, decide_False by (apply Hnone; by left).
    apply IH. intros u Hu. apply Hnone. by right.
  - intros Hsub. unfold user_lookup_callback. by rewrite Hsub.
Qed.

Lemma user_lookup_round_trip_witness :
  unique_ids library
  ∧ user_lookup_callback ∅ {[ "sub" := user_identity_lookup bob ]} library
    = Loaded (Some bob)
  ∧ user_lookup_callback ∅ {[ "sub" := 7 ]} library = Loaded None.
Proof.
  assert (unique_ids library) as Hnd.
  { unfold unique_ids. apply (bool_decide_unpack _). vm_compute. exact I. }
  destruct (user_lookup_round_trip ∅ {[ "sub" := user_identity_lookup bob ]}
              library Hnd) as (Hload & _).
  destruct (user_lookup_round_trip ∅ {[ "sub" := 7 ]} library Hnd)
    as (_ & _ & Hnone & _).
  split; [exact Hnd|]. split.
  - apply Hload; [right; left|reflexivity].
  - apply (Hnone 7); [reflexivity|].
    intros u Hu.
    apply elem_of_cons in Hu as [->|Hu]; [discriminate|].
    apply elem_of_cons in Hu as [->|Hu]; [discriminate|].
    apply elem_of_cons in Hu as [->|Hu]; [discriminate|].
    by apply elem_of_nil in Hu.
Defined.

(** X3. Login and the user loader compose: with user ids unique, the user
    returned by a successful login is the user that
    [user_lookup_callback] loads for a token whose subject is
    [user_identity_lookup] of that user, and that user is activated and
    carries the email of the login request. *)
Theorem login_then_lookup (M : Model) (header : gmap string string)
    (j : gmap string string) (st : Store) (u : User) (tok : string) :
  unique_ids st →
  login M j st
  = ok (JObject [("user", VUser u); ("access_token", VStr tok)]) →
  user_lookup_callback header {[ "sub" := user_identity_lookup u ]} st
  = Loaded (Some u)
  ∧ j !! "email" = Some (u_email u) ∧ u_activated u = true.
Proof.
  intros Hids Hlogin.
  assert (u ∈ users st ∧ j !! "email" = Some (u_email u)
          ∧ u_activated u = true) as (Hu & Hk & Ha).
  { unfold login in Hlogin.
    destruct (filter (λ x, j !! "email" = Some (u_email x)) (users st))
      as [|x [|??]] eqn:Ef; simpl in Hlogin; try done.
    destruct (u_activated x) eqn:Ea; simpl in Hlogin; [|done].
    destruct (check_password M x (j !! "password")); simpl in Hlogin;
      [|done].
    injection Hlogin as -> _.
    assert (u ∈ filter (λ x, j !! "email" = Some (u_email x)) (users st))
      as Hin by (rewrite Ef; by left).
    apply list_elem_of_filter in Hin as [Hk Hu]. done. }
  split; [|done].
  apply user_lookup_found; [done|done|]. apply lookup_singleton_eq.
Qed.

Lemma login_then_lookup_witness :
  user_lookup_callback ∅ {[ "sub" := user_identity_lookup alice ]} library
  = Loaded (Some alice)
  ∧ ({[ "email" := "a@x.org"; "password" := "secret" ]}
       : gmap string string) !! "email" = Some (u_email alice)
  ∧ u_activated alice = true.
Proof.
  apply (login_then_lookup inert ∅
           {[ "email" := "a@x.org"; "password" := "secret" ]}
           library alice "token").
  - unfold unique_ids. apply (bool_decide_unpack _). vm_compute. exact I.
  - vm_compute. reflexivity.
Defined.

(** ** Order of the listings *)

Lemma date_ge_iff (a b : date) :
  datetime.ge a b = true
  ↔ year b < year a
    ∨ (year a = year b
       ∧ (month b < month a ∨ (month a = month b ∧ day b ≤ day a))).
Proof.
  unfold datetime.ge.
  rewrite orb_true_iff, andb_true_iff, orb_true_iff, andb_true_iff.
  rewrite !Z.ltb_lt, !Z.eqb_eq, Z.leb_le. tauto.
Qed.

Lemma date_lt_iff (a b : date) :
  datetime.lt a b = true
  ↔ year a < year b
    ∨ (year a = year b
       ∧ (month a < month b ∨ (month a = month b ∧ day a < day b))).
Proof.
  unfold datetime.lt.
  rewrite orb_true_iff, andb_true_iff, orb_true_iff, andb_true_iff.
  rewrite !Z.ltb_lt, !Z.eqb_eq. tauto.
Qed.

Lemma date_ge_trans (a b c : date) :
  datetime.ge a b = true → datetime.ge b c = true → datetime.ge a c = true.
Proof. rewrite !date_ge_iff. lia. Qed.

Lemma date_ge_total (a b : date) :
  datetime.ge a b = false → datetime.ge b a = true.
Proof.
  intros H. apply not_true_iff_false in H.
  rewrite date_ge_iff in H. rewrite date_ge_iff. lia.
Qed.

Lemma date_ge_lt_ge (a b start : date) :
  datetime.ge a start = true → datetime.lt b start = true →
  datetime.ge a b = true.
Proof. rewrite !date_ge_iff, date_lt_iff. lia. Qed.

Lemma insert_desc_sorted (s : Sample) (l : list Sample) :
  by_date_desc l → by_date_desc (insert_desc s l).
Proof.
  unfold by_date_desc. induction 1 as [|x l Hl IH Hx]; simpl.
  - constructor; constructor.
  - destruct (datetime.ge (date_ s) (date_ x)) eqn:E.
    + constructor; [by constructor|]. constructor; [done|].
      eapply Forall_impl; [exact Hx|]. simpl. intros y Hy.
      by apply (date_ge_trans _ (date_ x)).
    + constructor; [done|]. rewrite insert_desc_perm.
      constructor; [by apply date_ge_total|done].
Qed.

Lemma order_by_date_desc_sorted (l : list Sample) :
  by_date_desc (order_by_date_desc l).
Proof.
  unfold order_by_date_desc. induction l as [|x l IH]; simpl.
  - constructor.
  - by apply insert_desc_sorted.
Qed.

Lemma by_date_desc_app (l1 l2 : list Sample) :
  by_date_desc l1 → by_date_desc l2 →
  (∀ a b, a ∈ l1 → b ∈ l2 → datetime.ge (date_ a) (date_ b) = true) →
  by_date_desc (l1 ++ l2).
Proof.
  unfold by_date_desc. intros H1 H2 Hcross.
  induction H1 as [|x l Hl IH Hx]; simpl; [done|].
  constructor.
  - apply IH. intros a b Ha Hb. apply Hcross; [by right|done].
  - apply Forall_app. split; [done|].
    apply Forall_forall. intros b Hb. apply Hcross; [by left|done].
Qed.

(** X4. Each of the two lists of [GET /samples] is in non-increasing date
    order, and so is the current list followed by the previous one: every
    current sample is dated on or after every previous one. *)
Theorem samples_listing_sorted (M : Model) (env : Env) (req : Request)
    (st : Store) :
  by_date_desc (samples_current M env req st)
  ∧ by_date_desc (samples_previous M env req st)
  ∧ by_date_desc
      (samples_current M env req st ++ samples_previous M env req st).
Proof.
  assert (by_date_desc (samples_current M env req st)) as Hc
    by apply order_by_date_desc_sorted.
  assert (by_date_desc (samples_previous M env req st)) as Hp
    by apply order_by_date_desc_sorted.
  split; [done|]. split; [done|].
  apply by_date_desc_app; [done|done|].
  intros a b. unfold samples_current, samples_previous.
  rewrite !(order_by_date_desc_perm _), !list_elem_of_filter.
  intros [Ha _] [Hb _].
  by apply (date_ge_lt_ge _ _ (get_start_of_week M env)).
Qed.

(** ** What a caller can see of other users' samples *)

Lemma filter_by_own (req : Request) (st : Store) :
  u_is_admin (current_user req) = false →
  filter_by req st
  = filter (λ s, json req !! "primary_key" = Some (primary_key s))
      (samples_of (u_email (current_user req)) st).
Proof.
  intros Hna. unfold filter_by, samples_of. rewrite Hna. simpl.
  rewrite !list_filter_filter. apply list_filter_iff. tauto.
Qed.

(** X5. What a caller who is not an administrator gets from
    [GET /samples] and from [POST /reference_sequence] depends on the sample
    table only through the caller's own samples: two stores that agree on
    them (and on the files) give the same responses, whatever other users
    have submitted.  The listing has this property for every caller. *)
Theorem responses_depend_on_own_samples (M : Model) (data_path : string)
    (env : Env) (req : Request) (st1 st2 : Store) :
  samples_of (u_email (current_user req)) st1
  = samples_of (u_email (current_user req)) st2 →
  files st1 = files st2 →
  samples_view M env req st1 = samples_view M env req st2
  ∧ (u_is_admin (current_user req) = false →
     reference_sequence data_path req st1
     = reference_sequence data_path req st2).
Proof.
  unfold samples_of. intros Hown Hfiles. split.
  - unfold samples_view, samples_current, samples_previous. by rewrite Hown.
  - intros Hna. unfold reference_sequence.
    rewrite !(filter_by_own _ _ Hna). unfold samples_of.
    by rewrite Hown, Hfiles.
Qed.

Lemma responses_depend_on_own_samples_witness :
  reference_sequence "/data" (post_key alice "2024-05-002") library
  = reference_sequence "/data" (post_key alice "2024-05-002")
      (mk_Store [alice] [sample_a] settings_1x3 (files library))
  ∧ samples_view inert monday (post_key alice "2024-05-002") library
    = samples_view inert monday (post_key alice "2024-05-002")
        (mk_Store [alice] [sample_a] settings_1x3 (files library)).
Proof.
  destruct (responses_depend_on_own_samples inert "/data" monday
              (post_key alice "2024-05-002") library
              (mk_Store [alice] [sample_a] settings_1x3 (files library)))
    as [Hview Hfetch]; [reflexivity|reflexivity|].
  split; [by apply Hfetch|exact Hview].
Defined.

(** ** The three refusals of [reference_sequence] *)

(** X6. With primary keys unique, each refusal of
    [POST /reference_sequence] tells exactly one thing: "Sample not found"
    that no sample with the requested key is visible to the caller; "Sample
    does not contain a reference sequence" that the visible sample has no
    description; "Fasta file not found" that it has one but no file is at
    its path. *)
Theorem reference_sequence_refusals (data_path : string) (req : Request)
    (st : Store) :
  unique_keys st →
  (reference_sequence data_path req st = err401 (JText "Sample not found")
   ↔ ∀ s, s ∈ samples st → ¬ visible req s)
  ∧ (reference_sequence data_path req st
     = err401 (JText "Sample does not contain a reference sequence")
     ↔ ∃ s, s ∈ samples st ∧ visible req s
            ∧ reference_sequence_description s = None)
  ∧ (reference_sequence data_path req st
     = err401 (JText "Fasta file not found")
     ↔ ∃ s, s ∈ samples st ∧ visible req s
            ∧ is_Some (reference_sequence_description s)
            ∧ files st !! filename data_path s = None).
Proof.
  intros Hnd. unfold reference_sequence.
  destruct (filter_by_unique req st Hnd) as [[Hf Hnone]|(x & Hx & Hv & Hf)];
    rewrite Hf; simpl.
  - split; [done|]. split.
    + split; [done|]. intros (s & Hs & Hvs & _). by destruct (Hnone s).
    + split; [done|]. intros (s & Hs & Hvs & _). by destruct (Hnone s).
  - assert (∀ s, s ∈ samples st → visible req s → s = x) as Huniq.
    { intros s Hs Hvs. pose proof (filter_by_visible req st s Hnd Hs Hvs).
      congruence. }
    destruct (reference_sequence_description x) as [d|] eqn:Ed;
      [destruct (files st !! filename data_path x) as [c|] eqn:Ec|].
    + split; [|split].
      * split; [done|]. intros Hall. by destruct (Hall x Hx).
      * split; [done|]. intros (s & Hs & Hvs & Hd).
        rewrite (Huniq s Hs Hvs) in Hd. congruence.
      * split; [done|]. intros (s & Hs & Hvs & _ & Hc).
        rewrite (Huniq s Hs Hvs) in Hc. congruence.
    + split; [|split].
      * split; [done|]. intros Hall. by destruct (Hall x Hx).
      * split; [done|]. intros (s & Hs & Hvs & Hd).
        rewrite (Huniq s Hs Hvs) in Hd. congruence.
      * split; [intros _|done]. exists x. by rewrite Ed.
    + split; [|split].
      * split; [done|]. intros Hall. by destruct (Hall x Hx).
      * split; [intros _|done]. by exists x.
      * split; [done|]. intros (s & Hs & Hvs & [d Hd] & _).
        rewrite (Huniq s Hs Hvs) in Hd. congruence.
Qed.

Lemma reference_sequence_refusals_witness :
  unique_keys library
  ∧ reference_sequence "/data" (post_key bob "2024-05-002") library
    = err401 (JText "Sample does not contain a reference sequence")
  ∧ reference_sequence "/data" (post_key alice "2024-05-001")
      (mk_Store [alice] [sample_a] settings_1x2 ∅)
    = err401 (JText "Fasta file not found").
Proof.
  assert (unique_keys library) as Hnd.
  { unfold unique_keys. apply (bool_decide_unpack _). vm_compute. exact I. }
  assert (unique_keys (mk_Store [alice] [sample_a] settings_1x2 ∅)) as Hnd'.
  { unfold unique_keys. apply (bool_decide_unpack _). vm_compute. exact I. }
  split; [exact Hnd|]. split.
  - destruct (reference_sequence_refusals "/data"
                (post_key bob "2024-05-002") library Hnd) as (_ & Hflag & _).
    apply Hflag. exists sample_b.
    split; [right; left|]. split; [|reflexivity].
    split; [reflexivity|right; reflexivity].
  - destruct (reference_sequence_refusals "/data"
                (post_key alice "2024-05-001")
                (mk_Store [alice] [sample_a] settings_1x2 ∅) Hnd')
      as (_ & _ & Hfile).
    apply Hfile. exists sample_a.
    split; [left|]. split; [split; [reflexivity|right; reflexivity]|].
    split; [by eexists|reflexivity].
Defined.

(** ** Exceptions and missing responses *)




(** X8. The only way any view function ends without a response is the
    failing settings update: a handler returns [None] exactly when the
    endpoint is [/admin/settings], the caller is an administrator, the
    method is POST and [set_current_settings] reports failure. *)
Theorem no_response_characterisation (M : Model) (data_path : string)
    (ep : endpoint) (env : Env) (req : Request) (st : Store) :
  (handle M data_path ep env req st).1 = ReturnNone
  ↔ ep = AdminSettings ∧ u_is_admin (current_user req) = true
    ∧ method req = POST
    ∧ (set_current_settings M (u_email (current_user req)) (json req) st).1
      = false.
Proof.
  destruct ep; simpl.
  - unfold login, ok, err401. split; [|by intros [? _]].
    destruct (scalar_one_or_none _) as [e'|[u|]]; try done.
    repeat (destruct (negb _)); done.
  - unfold signup. split; [|by intros [? _]].
    by destruct (add_new_user M _ _ st) as [[] st'].
  - split; [done|by intros [? _]].
  - split; [done|by intros [? _]].
  - unfold reference_sequence, ok, err401. split; [|by intros [? _]].
    destruct (scalar_one_or_none _) as [e'|[s|]]; try done.
    destruct (reference_sequence_description s); [|done].
    by destruct (files st !! _).
  - unfold add_sample. split; [|by intros [? _]].
    by destruct (add_new_sample M _ _ _ _ _ st) as [[s|] st'].
  - unfold admin_settings.
    destruct (u_is_admin (current_user req)); simpl;
      [|split; [done|by intros (_ & ? & _)]].
    destruct (method req); simpl; [split; [done|by intros (_ & _ & ? & _)]|].
    destruct (set_current_settings M _ _ st) as [[] st']; simpl.
    + split; [done|by intros (_ & _ & _ & ?)].
    + done.
  - unfold admin_all_samples, ok, err401. split; [|by intros [? _]].
    destruct (negb _); [done|].
    destruct (isocalendar (today env)) as [[y w] d].
    by destruct (fromisocalendar y w 1).
  - unfold admin_all_users, ok, err401. split; [|by intros [? _]].
    by destruct (u_is_admin _).
Qed.

(** X9. The settings endpoint leaves the store alone unless an
    administrator posts: for a caller who is not an administrator, and for
    every GET, the store after [admin_settings] is the store before,
    whatever [set_current_settings] would do. *)
Theorem settings_written_only_by_admin_post (M : Model) (req : Request)
    (st : Store) :
  (admin_settings M req st).2 ≠ st →
  u_is_admin (current_user req) = true ∧ method req = POST
  ∧ (admin_settings M req st).2
    = (set_current_settings M (u_email (current_user req)) (json req) st).2.
Proof.
  unfold admin_settings.
  destruct (u_is_admin (current_user req)); simpl; [|done].
  destruct (method req); simpl; [done|].
  by destruct (set_current_settings M _ _ st) as [[] st'].
Qed.

Lemma settings_written_only_by_admin_post_witness :
  let M :=
    mk_Model (check_password inert) (create_access_token inert)
      (get_start_of_week inert) (add_new_user inert) (add_new_sample inert)
      (count_samples_this_week inert) (get_current_settings inert)
      (λ _ _ st, (true, with_settings settings_1x3 st)) in
  u_is_admin (current_user (mk_Request POST root ∅ ∅ ∅)) = true
  ∧ method (mk_Request POST root ∅ ∅ ∅) = POST
  ∧ (admin_settings M (mk_Request POST root ∅ ∅ ∅) library).2
    = with_settings settings_1x3 library.
Proof.
  intros M.
  apply (settings_written_only_by_admin_post M (mk_Request POST root ∅ ∅ ∅)
           library).
  intros H. apply (f_equal (λ s, plate_n_cols (settings s))) in H.
  vm_compute in H. discriminate.
Defined.

(** ** ISO weeks

    Arithmetic of [isocalendar] and [fromisocalendar], for the start of the
    week that [admin_all_samples] computes and for the directories that
    [reference_sequence] reads from. *)

Ltac eval_tbl :=
  repeat match goal with
         | |- context [tbl ?t ?k] =>
             let v := eval vm_compute in (tbl t k) in
             change (tbl t k) with v
         | H : context [tbl ?t ?k] |- _ =>
             let v := eval vm_compute in (tbl t k) in
             change (tbl t k) with v in H
         end.

Lemma first_day_of_year (y : Z) : _ymd2ord y 1 1 = _days_before_year y + 1.
Proof. unfold _ymd2ord, _days_before_month. eval_tbl. simpl. lia. Qed.

Lemma days_before_year_succ (y : Z) :
  _days_before_year (y + 1)
  = _days_before_year y + 365 + (if _is_leap y then 1 else 0).
Proof.
  unfold _days_before_year, _is_leap. cbv zeta.
  replace (y + 1 - 1) with y by lia.
  destruct (Z.eqb_spec (y mod 4) 0), (Z.eqb_spec (y mod 100) 0),
    (Z.eqb_spec (y mod 400) 0); simpl;
    Z.to_euclidean_division_equations; lia.
Qed.

Lemma first_day_succ (y : Z) :
  _ymd2ord (y + 1) 1 1 = _ymd2ord y 1 1 + 365 + (if _is_leap y then 1 else 0).
Proof. rewrite !first_day_of_year, days_before_year_succ. lia. Qed.

Lemma isoweek1monday_spec (y : Z) :
  _isoweek1monday y mod 7 = 1
  ∧ _ymd2ord y 1 1 - 3 ≤ _isoweek1monday y ≤ _ymd2ord y 1 1 + 3.
Proof.
  unfold _isoweek1monday. cbv zeta.
  generalize (_ymd2ord y 1 1). intros f.
  destruct (Z.ltb_spec 3 ((f + 6) mod 7));
    Z.to_euclidean_division_equations; lia.
Qed.

Lemma iso_year_length (y : Z) :
  (_isoweek1monday (y + 1) - _isoweek1monday y = 364
   ∨ _isoweek1monday (y + 1) - _isoweek1monday y = 371)
  ∧ (_isoweek1monday (y + 1) - _isoweek1monday y = 371 →
     (_ymd2ord y 1 1 mod 7 =? 4)
     || ((_ymd2ord y 1 1 mod 7 =? 3) && _is_leap y) = true).
Proof.
  pose proof (first_day_succ y) as Hs.
  unfold _isoweek1monday. cbv zeta. rewrite Hs.
  generalize (_ymd2ord y 1 1). intros f.
  destruct (_is_leap y);
    destruct (Z.ltb_spec 3 ((f + 6) mod 7)),
      (Z.eqb_spec (f mod 7) 4), (Z.eqb_spec (f mod 7) 3);
    simpl;
    match goal with
    | |- context [3 <? ?x] => destruct (Z.ltb_spec 3 x)
    end; Z.to_euclidean_division_equations; lia.
Qed.

Lemma valid_date_ordinal (d : date) :
  1 ≤ month d ≤ 12 → 1 ≤ day d ≤ _days_in_month (year d) (month d) →
  _ymd2ord (year d) 1 1 ≤ toordinal d
  ≤ _ymd2ord (year d) 1 1 + 364 + (if _is_leap (year d) then 1 else 0).
Proof.
  intros Hm Hd. rewrite first_day_of_year.
  unfold toordinal, _ymd2ord, _days_before_month.
  unfold _days_in_month in Hd.
  assert (month d = 1 ∨ month d = 2 ∨ month d = 3 ∨ month d = 4
          ∨ month d = 5 ∨ month d = 6 ∨ month d = 7 ∨ month d = 8
          ∨ month d = 9 ∨ month d = 10 ∨ month d = 11 ∨ month d = 12)
    as Hcases by lia.
  destruct (_is_leap (year d));
    repeat (destruct Hcases as [E|Hcases];
            [rewrite E in *; eval_tbl; simpl in *; lia|]);
    rewrite Hcases in *; eval_tbl; simpl in *; lia.
Qed.

Lemma isoweek1monday_bounds_at_ends :
  _isoweek1monday 1 = 1 ∧ _ymd2ord 1 1 1 = 1
  ∧ _ymd2ord 9999 1 1 + 364 < _isoweek1monday 10000
  ∧ _is_leap 9999 = false.
Proof. vm_compute. repeat split; congruence. Qed.

(** For a valid date, [fromisocalendar] accepts the ISO year and week that
    [isocalendar] reports, and with weekday 1 gives the date whose ordinal
    is that of the Monday of that week. *)
Lemma start_of_iso_week (d : date) (y w k : Z) :
  valid_date d → isocalendar d = (y, w, k) →
  1 ≤ k ≤ 7
  ∧ fromisocalendar y w 1 = Some (fromordinal (toordinal d - (k - 1))).
Proof.
  intros (Hy & Hm & Hd) Hiso. unfold MINYEAR, MAXYEAR in Hy.
  pose proof (valid_date_ordinal d Hm Hd) as Hn.
  pose proof (isoweek1monday_spec (year d)) as [Hmod0 Hb0].
  pose proof (isoweek1monday_spec (year d - 1)) as [Hmodp Hbp].
  pose proof (isoweek1monday_spec (year d + 1)) as [Hmodn Hbn].
  pose proof (iso_year_length (year d)) as [Hlen0 Hlong0].
  pose proof (iso_year_length (year d - 1)) as [Hlenp Hlongp].
  replace (year d - 1 + 1) with (year d) in Hlenp, Hlongp by lia.
  pose proof (first_day_succ (year d)) as Hnext.
  pose proof (first_day_succ (year d - 1)) as Hprev.
  replace (year d - 1 + 1) with (year d) in Hprev by lia.
  destruct isoweek1monday_bounds_at_ends as (Hfirst & Hfirst' & Hlast & Hlast').
  unfold isocalendar in Hiso. cbv zeta in Hiso.
  fold (toordinal d) in Hiso.
  set (n := toordinal d) in *.
  set (M0 := _isoweek1monday (year d)) in *.
  set (Mp := _isoweek1monday (year d - 1)) in *.
  set (Mn := _isoweek1monday (year d + 1)) in *.
  set (F0 := _ymd2ord (year d) 1 1) in *.
  set (Fp := _ymd2ord (year d - 1) 1 1) in *.
  set (l0 := if _is_leap (year d) then 1 else 0) in *.
  set (lp := if _is_leap (year d - 1) then 1 else 0) in *.
  assert (0 ≤ l0 ≤ 1) as Hl0
    by (unfold l0; destruct (_is_leap (year d)); lia).
  assert (0 ≤ lp ≤ 1) as Hlp
    by (unfold lp; destruct (_is_leap (year d - 1)); lia).
  assert (year d = 1 → M0 = 1 ∧ F0 = 1) as Hy1.
  { intros E. unfold M0, F0. by rewrite E. }
  assert (year d = 9999 → F0 + 364 < Mn ∧ l0 = 0) as Hy9999.
  { intros E. unfold Mn, F0, l0. rewrite E. simpl (9999 + 1).
    by rewrite Hlast'. }
  unfold fromisocalendar, MINYEAR, MAXYEAR.
  destruct (Z.ltb_spec ((n - M0) / 7) 0) as [Hneg|Hnonneg].
  - (* the last ISO week of the previous year *)
    injection Hiso as <- <- <-.
    assert (1 < year d) as Hgt.
    { destruct (decide (year d = 1)) as [E|]; [|lia].
      destruct (Hy1 E). Z.to_euclidean_division_equations; lia. }
    split; [Z.to_euclidean_division_equations; lia|].
    rewrite (proj2 (Z.leb_le 1 (year d - 1))) by lia.
    rewrite (proj2 (Z.leb_le (year d - 1) 9999)) by lia. simpl.
    destruct Hlenp as [G|G].
    + assert ((n - Mp) / 7 + 1 = 52) as ->
        by (Z.to_euclidean_division_equations; lia).
      simpl. do 2 f_equal. Z.to_euclidean_division_equations; lia.
    + assert ((n - Mp) / 7 + 1 = 53) as ->
        by (Z.to_euclidean_division_equations; lia).
      simpl. fold Fp. rewrite (Hlongp G). simpl.
      do 2 f_equal. Z.to_euclidean_division_equations; lia.
  - destruct ((52 <=? (n - M0) / 7) && (Mn <=? n)) eqn:Enext.
    + (* the first ISO week of the next year *)
      injection Hiso as <- <- <-.
      apply andb_true_iff in Enext as [H52 Hge].
      apply Z.leb_le in H52, Hge.
      assert (year d < 9999) as Hlt.
      { destruct (decide (year d = 9999)) as [E|]; [|lia].
        destruct (Hy9999 E). lia. }
      split; [Z.to_euclidean_division_equations; lia|].
      rewrite (proj2 (Z.leb_le 1 (year d + 1))) by lia.
      rewrite (proj2 (Z.leb_le (year d + 1) 9999)) by lia. simpl.
      fold Mn. do 2 f_equal. Z.to_euclidean_division_equations; lia.
    + (* a week of the year of the date *)
      injection Hiso as <- <- <-.
      apply andb_false_iff in Enext.
      split; [Z.to_euclidean_division_equations; lia|].
      rewrite (proj2 (Z.leb_le 1 (year d))) by lia.
      rewrite (proj2 (Z.leb_le (year d) 9999)) by lia. simpl.
      fold M0.
      destruct (Z.ltb_spec ((n - M0) / 7 + 1) 53) as [Hw|Hw].
      * rewrite (proj2 (Z.ltb_lt 0 ((n - M0) / 7 + 1))) by lia. simpl.
        do 2 f_equal. Z.to_euclidean_division_equations; lia.
      * assert (Mn - M0 = 371) as G.
        { destruct Hlen0 as [G|G]; [|done]. exfalso.
          destruct Enext as [E|E];
            [apply Z.leb_gt in E|apply Z.leb_gt in E];
            Z.to_euclidean_division_equations; lia. }
        assert ((n - M0) / 7 + 1 = 53) as ->
          by (Z.to_euclidean_division_equations; lia).
        simpl. fold F0. rewrite (Hlong0 G). simpl.
        do 2 f_equal. Z.to_euclidean_division_equations; lia.
Qed.

Lemma isocalendar_range (d : date) (y w k : Z) :
  valid_date d → isocalendar d = (y, w, k) →
  year d - 1 ≤ y ≤ year d + 1 ∧ 1 ≤ w ≤ 53 ∧ 1 ≤ k ≤ 7.
Proof.
  intros (Hy & Hm & Hd) Hiso.
  pose proof (valid_date_ordinal d Hm Hd) as Hn.
  pose proof (isoweek1monday_spec (year d)) as [Hmod0 Hb0].
  pose proof (isoweek1monday_spec (year d - 1)) as [Hmodp Hbp].
  pose proof (iso_year_length (year d)) as [Hlen0 _].
  pose proof (iso_year_length (year d - 1)) as [Hlenp _].
  replace (year d - 1 + 1) with (year d) in Hlenp by lia.
  pose proof (isoweek1monday_spec (year d + 1)) as [Hmodn Hbn].
  pose proof (first_day_succ (year d)) as Hnext.
  unfold isocalendar in Hiso. cbv zeta in Hiso.
  fold (toordinal d) in Hiso.
  set (n := toordinal d) in *.
  set (M0 := _isoweek1monday (year d)) in *.
  set (Mp := _isoweek1monday (year d - 1)) in *.
  set (Mn := _isoweek1monday (year d + 1)) in *.
  set (F0 := _ymd2ord (year d) 1 1) in *.
  set (l0 := if _is_leap (year d) then 1 else 0) in *.
  assert (0 ≤ l0 ≤ 1) as Hl0
    by (unfold l0; destruct (_is_leap (year d)); lia).
  destruct (Z.ltb_spec ((n - M0) / 7) 0) as [Hneg|Hnonneg].
  - injection Hiso as <- <- <-.
    split; [lia|]. Z.to_euclidean_division_equations; lia.
  - destruct ((52 <=? (n - M0) / 7) && (Mn <=? n)) eqn:Enext.
    + injection Hiso as <- <- <-.
      split; [lia|]. Z.to_euclidean_division_equations; lia.
    + injection Hiso as <- <- <-.
      split; [lia|]. Z.to_euclidean_division_equations; lia.
Qed.

(** X10. When today is a valid date, [GET /admin/allsamples] never raises:
    [date.fromisocalendar] accepts the ISO year and week of today, and the
    start of the week it yields is the date whose ordinal is today's minus
    the ISO weekday less one, the Monday of today's week.  An administrator
    gets the samples split at that date. *)
Theorem admin_all_samples_start_of_week (env : Env) (req : Request)
    (st : Store) :
  valid_date (today env) →
  (∀ e, admin_all_samples env req st ≠ Raise e)
  ∧ ∃ y w k,
      isocalendar (today env) = (y, w, k) ∧ 1 ≤ k ≤ 7
      ∧ fromisocalendar y w 1
        = Some (fromordinal (toordinal (today env) - (k - 1)))
      ∧ (u_is_admin (current_user req) = true →
         let start := fromordinal (toordinal (today env) - (k - 1)) in
         admin_all_samples env req st
         = ok (JObject
                 [("current_samples",
                   VSamples
                     (order_by_date_desc
                        (filter (λ s, datetime.ge (date_ s) start = true)
                           (samples st))));
                  ("previous_samples",
                   VSamples
                     (order_by_date_desc
                        (filter (λ s, datetime.lt (date_ s) start = true)
                           (samples st))))])).
Proof.
  intros Hvalid.
  destruct (isocalendar (today env)) as [[y w] k] eqn:Eiso.
  destruct (start_of_iso_week (today env) y w k Hvalid Eiso) as [Hk Hstart].
  split.
  - intros e. unfold admin_all_samples. rewrite Eiso, Hstart.
    by destruct (negb _).
  - exists y, w, k. split; [done|]. split; [done|]. split; [done|].
    intros Ha. unfold admin_all_samples. by rewrite Ha, Eiso, Hstart.
Qed.

Lemma admin_all_samples_start_of_week_witness :
  valid_date (mk_date 2021 1 3)
  ∧ admin_all_samples (mk_Env (mk_date 2021 1 3) true)
      (mk_Request GET root ∅ ∅ ∅) library
    ≠ Raise ValueError
  ∧ fromisocalendar 2020 53 1 = Some (mk_date 2020 12 28).
Proof.
  assert (valid_date (mk_date 2021 1 3)) as Hvalid by (vm_compute; intuition discriminate).
  split; [exact Hvalid|].
  destruct (admin_all_samples_start_of_week (mk_Env (mk_date 2021 1 3) true)
              (mk_Request GET root ∅ ∅ ∅) library Hvalid) as [Hno _].
  split; [apply Hno|reflexivity].
Defined.

(** X11. Whenever [GET /admin/allsamples] answers an administrator with
    its two lists, they split the whole sample table: together they are a
    rearrangement of all samples, and the current list followed by the
    previous one is in non-increasing date order. *)
Theorem admin_all_samples_partition (env : Env) (req : Request) (st : Store)
    (cur prev : list Sample) :
  admin_all_samples env req st
  = ok (JObject [("current_samples", VSamples cur);
                 ("previous_samples", VSamples prev)]) →
  Permutation (cur ++ prev) (samples st)
  ∧ by_date_desc (cur ++ prev)
  ∧ u_is_admin (current_user req) = true.
Proof.
  unfold admin_all_samples.
  destruct (u_is_admin (current_user req)); simpl; [|done].
  destruct (isocalendar (today env)) as [[y w] k].
  destruct (fromisocalendar y w 1) as [start|]; [|done].
  intros [= <- <-]. split; [|split; [|done]].
  - rewrite !order_by_date_desc_perm. apply split_by_week_perm.
  - apply by_date_desc_app; try apply order_by_date_desc_sorted.
    intros a b.
    rewrite !(order_by_date_desc_perm _), !list_elem_of_filter.
    intros [Ha _] [Hb _]. by apply (date_ge_lt_ge _ _ start).
Qed.

Lemma admin_all_samples_partition_witness :
  Permutation ([sample_b; sample_a] ++ []) (samples library)
  ∧ by_date_desc ([sample_b; sample_a] ++ [])
  ∧ u_is_admin root = true.
Proof.
  apply (admin_all_samples_partition monday (mk_Request GET root ∅ ∅ ∅)
           library [sample_b; sample_a] []).
  vm_compute. reflexivity.
Defined.

(** X12. The directory a reference sequence is read from: for a sample with
    a valid date the path is
    [data_path/Y/W/reference/key_name.fasta] with [W] between 1 and 53 and
    [Y] the calendar year of the date, the year before or the year after
    (the ISO year of the date). *)
Theorem reference_file_directory (data_path : string) (s : Sample) :
  valid_date (date_ s) →
  ∃ Y W,
    filename data_path s
    = data_path +:+ "/" +:+ pretty Y +:+ "/" +:+ pretty W +:+ "/reference/"
      +:+ primary_key s +:+ "_" +:+ name s +:+ ".fasta"
    ∧ year (date_ s) - 1 ≤ Y ≤ year (date_ s) + 1 ∧ 1 ≤ W ≤ 53.
Proof.
  intros Hvalid. unfold filename.
  destruct (isocalendar (date_ s)) as [[y w] k] eqn:Eiso.
  destruct (isocalendar_range (date_ s) y w k Hvalid Eiso) as (Hy & Hw & _).
  by exists y, w.
Qed.

Lemma reference_file_directory_witness :
  valid_date (mk_date 2021 1 3)
  ∧ ∃ Y W,
      filename "/data"
        (mk_Sample "k" "a@x.org" "x" (mk_date 2021 1 3) 1 None)
      = "/data" +:+ "/" +:+ pretty Y +:+ "/" +:+ pretty W +:+ "/reference/"
        +:+ "k" +:+ "_" +:+ "x" +:+ ".fasta"
      ∧ 2021 - 1 ≤ Y ≤ 2021 + 1 ∧ 1 ≤ W ≤ 53.
Proof.
  assert (valid_date (mk_date 2021 1 3)) as Hvalid
    by (vm_compute; intuition discriminate).
  split; [exact Hvalid|].
  apply (reference_file_directory "/data"
           (mk_Sample "k" "a@x.org" "x" (mk_date 2021 1 3) 1 None) Hvalid).
Defined.

(** X13. A request that lacks the field a query looks up is refused as
    unknown, whatever the store holds: [reference_sequence] without
    [primary_key] answers "Sample not found", [login] without [email]
    answers "Unknown email address"; neither raises. *)
Theorem missing_field_is_unknown (M : Model) (data_path : string)
    (req : Request) (st : Store) :
  (json req !! "primary_key" = None →
   reference_sequence data_path req st = err401 (JText "Sample not found"))
  ∧ (json req !! "email" = None →
     login M (json req) st = err401 (JText "Unknown email address")).
Proof.
  split; intros Hnone.
  - unfold reference_sequence.
    assert (filter_by req st = []) as ->; [|done].
    assert (filter (λ s, json req !! "primary_key" = Some (primary_key s))
              (samples st) = []) as E.
    { induction (samples st) as [|x l IH]; [done|].
      rewrite filter_cons, decide_False by congruence. exact IH. }
    unfold filter_by. rewrite E. by destruct (negb _).
  - unfold login.
    assert (filter (λ u, json req !! "email" = Some (u_email u)) (users st)
            = []) as ->; [|done].
    induction (users st) as [|x l IH]; [done|].
    rewrite filter_cons, decide_False by congruence. exact IH.
Qed.

Lemma missing_field_is_unknown_witness :
  reference_sequence "/data" (mk_Request POST alice ∅ ∅ ∅) library
  = err401 (JText "Sample not found")
  ∧ login inert (json (mk_Request POST alice ∅ ∅ ∅)) library
    = err401 (JText "Unknown email address").
Proof.
  destruct (missing_field_is_unknown inert "/data"
              (mk_Request POST alice ∅ ∅ ∅) library) as [Hkey Hemail].
  split; [by apply Hkey|by apply Hemail].
Defined.

(** ** What the responses disclose *)

(** X14. Sample records reach a caller only in three ways: the record just
    created by the caller's own [POST /addsample]; the caller's own samples
    in [GET /samples]; and, for an administrator, any stored sample in
    [GET /admin/allsamples].  No other endpoint puts a sample record into
    its response, and no response carries another user's sample to a
    caller who is not an administrator. *)
Theorem sample_records_disclosed (M : Model) (data_path : string)
    (ep : endpoint) (env : Env) (req : Request) (st : Store) (r : Response)
    (s : Sample) :
  (handle M data_path ep env req st).1 = Return r →
  s ∈ disclosed_samples (body r) →
  (ep = AddSample
   ∧ (add_new_sample M (u_email (current_user req))
        (default "" (form req !! "name")) (upload req !! "file")
        data_path env st).1 = Some s)
  ∨ (ep = Samples ∧ s ∈ samples st ∧ email s = u_email (current_user req))
  ∨ (ep = AdminAllSamples ∧ s ∈ samples st
     ∧ u_is_admin (current_user req) = true).
Proof.
  destruct ep; simpl.
  - unfold login, ok, err401.
    destruct (scalar_one_or_none _) as [e|[u|]]; [done| |];
      repeat (destruct (negb _)); intros [= <-]; simpl;
      by intros ?%elem_of_nil.
  - unfold signup, ok, err401.
    destruct (add_new_user M _ _ st) as [[] st']; intros [= <-]; simpl;
      by intros ?%elem_of_nil.
  - unfold remaining, ok. intros [= <-]; simpl. by intros ?%elem_of_nil.
  - unfold samples_view, ok. intros [= <-]; simpl.
    rewrite app_nil_r. intros Hin. right. left. split; [done|].
    apply elem_of_app in Hin as [Hin|Hin];
      unfold samples_current, samples_previous in Hin;
      rewrite (order_by_date_desc_perm _) in Hin;
      apply list_elem_of_filter in Hin as [_ Hin];
      apply list_elem_of_filter in Hin as [He Hs]; done.
  - unfold reference_sequence, ok, err401.
    destruct (scalar_one_or_none _) as [e|[x|]]; [done| |];
      [destruct (reference_sequence_description x);
       [destruct (files st !! _)|]|];
      intros [= <-]; simpl; by intros ?%elem_of_nil.
  - unfold add_sample, ok, err401.
    destruct (add_new_sample M _ _ _ _ _ st) as [[x|] st'];
      intros [= <-]; simpl.
    + intros Hin%list_elem_of_singleton. subst. by left.
    + by intros ?%elem_of_nil.
  - unfold admin_settings, ok, err401.
    destruct (negb _); [intros [= <-]; simpl; by intros ?%elem_of_nil|].
    destruct (method req); [intros [= <-]; simpl; by intros ?%elem_of_nil|].
    destruct (set_current_settings M _ _ st) as [[] st']; [|done].
    intros [= <-]; simpl. by intros ?%elem_of_nil.
  - unfold admin_all_samples, ok, err401.
    destruct (u_is_admin (current_user req)) eqn:Ea; simpl;
      [|intros [= <-]; simpl; by intros ?%elem_of_nil].
    destruct (isocalendar (today env)) as [[y w] d].
    destruct (fromisocalendar y w 1) as [start|]; [|done].
    intros [= <-]; simpl. rewrite app_nil_r. intros Hin.
    right. right. split; [done|]. split; [|done].
    apply elem_of_app in Hin as [Hin|Hin];
      rewrite (order_by_date_desc_perm _) in Hin;
      apply list_elem_of_filter in Hin as [_ Hin]; done.
  - unfold admin_all_users, ok, err401.
    destruct (u_is_admin _); intros [= <-]; simpl; by intros ?%elem_of_nil.
Qed.

Lemma sample_records_disclosed_witness :
  (handle inert "/data" Samples
     (mk_Env (mk_date 2024 1 30) true) (post_key alice "k") library).1
  = Return (mk_Response
              (JObject [("current_samples", VSamples [sample_a]);
                        ("previous_samples", VSamples [])]) 200)
  ∧ ((Samples = AddSample
      ∧ (add_new_sample inert (u_email alice) "" None "/data"
           (mk_Env (mk_date 2024 1 30) true) library).1 = Some sample_a)
     ∨ (Samples = Samples ∧ sample_a ∈ samples library
        ∧ email sample_a = u_email alice)
     ∨ (Samples = AdminAllSamples ∧ sample_a ∈ samples library
        ∧ u_is_admin alice = true)).
Proof.
  split; [vm_compute; reflexivity|].
  apply (sample_records_disclosed inert "/data" Samples
           (mk_Env (mk_date 2024 1 30) true) (post_key alice "k") library
           (mk_Response
              (JObject [("current_samples", VSamples [sample_a]);
                        ("previous_samples", VSamples [])]) 200)
           sample_a).
  - vm_compute. reflexivity.
  - simpl. left.
Defined.

(** X15. User records reach a caller only in two ways: the record of the
    account that has just logged in, activated and with the password
    checked, in [POST /login]; and the whole user table, for an
    administrator, in [GET /admin/allusers]. *)
Theorem user_records_disclosed (M : Model) (data_path : string)
    (ep : endpoint) (env : Env) (req : Request) (st : Store) (r : Response)
    (u : User) :
  (handle M data_path ep env req st).1 = Return r →
  u ∈ disclosed_users (body r) →
  (ep = Login ∧ u ∈ users st ∧ json req !! "email" = Some (u_email u)
   ∧ u_activated u = true
   ∧ check_password M u (json req !! "password") = true)
  ∨ (ep = AdminAllUsers ∧ u ∈ users st
     ∧ u_is_admin (current_user req) = true).
Proof.
  destruct ep; simpl.
  - unfold login, ok, err401.
    destruct (filter (λ x, json req !! "email" = Some (u_email x)) (users st))
      as [|x [|??]] eqn:Ef; simpl; try done.
    + intros [= <-]; simpl. by intros ?%elem_of_nil.
    + destruct (u_activated x) eqn:Ea; simpl;
        [|intros [= <-]; simpl; by intros ?%elem_of_nil].
      destruct (check_password M x (json req !! "password")) eqn:Ec; simpl;
        [|intros [= <-]; simpl; by intros ?%elem_of_nil].
      intros [= <-]; simpl. intros Hin%list_elem_of_singleton. subst x.
      left. split; [done|].
      assert (u ∈ filter (λ x, json req !! "email" = Some (u_email x))
                  (users st)) as Hin by (rewrite Ef; by left).
      apply list_elem_of_filter in Hin as [Hk Hu]. done.
  - unfold signup, ok, err401.
    destruct (add_new_user M _ _ st) as [[] st']; intros [= <-]; simpl;
      by intros ?%elem_of_nil.
  - unfold remaining, ok. intros [= <-]; simpl. by intros ?%elem_of_nil.
  - unfold samples_view, ok. intros [= <-]; simpl. by intros ?%elem_of_nil.
  - unfold reference_sequence, ok, err401.
    destruct (scalar_one_or_none _) as [e|[x|]]; [done| |];
      [destruct (reference_sequence_description x);
       [destruct (files st !! _)|]|];
      intros [= <-]; simpl; by intros ?%elem_of_nil.
  - unfold add_sample, ok, err401.
    destruct (add_new_sample M _ _ _ _ _ st) as [[x|] st'];
      intros [= <-]; simpl; by intros ?%elem_of_nil.
  - unfold admin_settings, ok, err401.
    destruct (negb _); [intros [= <-]; simpl; by intros ?%elem_of_nil|].
    destruct (method req); [intros [= <-]; simpl; by intros ?%elem_of_nil|].
    destruct (set_current_settings M _ _ st) as [[] st']; [|done].
    intros [= <-]; simpl. by intros ?%elem_of_nil.
  - unfold admin_all_samples, ok, err401.
    destruct (negb _); [intros [= <-]; simpl; by intros ?%elem_of_nil|].
    destruct (isocalendar (today env)) as [[y w] d].
    destruct (fromisocalendar y w 1) as [start|]; [|done].
    intros [= <-]; simpl. by intros ?%elem_of_nil.
  - unfold admin_all_users, ok, err401.
    destruct (u_is_admin (current_user req)) eqn:Ea;
      intros [= <-]; simpl; [|by intros ?%elem_of_nil].
    rewrite app_nil_r. intros Hin. right. done.
Qed.

Lemma user_records_disclosed_witness :
  (AdminAllUsers = Login ∧ bob ∈ users library
   ∧ json (mk_Request GET root ∅ ∅ ∅) !! "email" = Some (u_email bob)
   ∧ u_activated bob = true
   ∧ check_password inert bob
       (json (mk_Request GET root ∅ ∅ ∅) !! "password") = true)
  ∨ (AdminAllUsers = AdminAllUsers ∧ bob ∈ users library
     ∧ u_is_admin (current_user (mk_Request GET root ∅ ∅ ∅)) = true).
Proof.
  apply (user_records_disclosed inert "/data" AdminAllUsers monday
           (mk_Request GET root ∅ ∅ ∅) library
           (mk_Response (JObject [("users", VUsers (users library))]) 200)
           bob).
  - reflexivity.
  - simpl. right. left.
Defined.
